(** * theanets.graph: the network computation-graph assembly layer

    A shallow embedding of [theanets/graph.py] (class [Network] and the
    module-level helpers) together with the properties of the natural-language
    specification that can be settled on it.

    Conventions of the embedding.
    - Python exceptions are values of [exn]; a computation that may raise
      returns a [result].
    - Python objects that the code dispatches on with [isinstance] are the
      constructors of [pyobj].
    - Theano expressions are the symbolic terms of [expr]: the code only ever
      builds them, it never evaluates them.
    - The lists and tuples that the caches share with their callers are
      objects of a heap, so that a mutation in place is seen through every
      reference.
    - [hashlib.md5] is the digest of RFC 1321, written out.
    - The collaborators that live outside this file of the repository (the
      layer factory [layers.build], the layer registry, the [output] method of
      the layer classes) are Variables of the Section that holds the
      embedding. *)

From Stdlib Require Import ZArith QArith List Ascii String Lia.
From stdpp Require Import base option list gmap strings pretty.

#[local] Set Warnings "-register-all".

Local Open Scope string_scope.
Local Open Scope list_scope.
Local Open Scope Z_scope.

(** ** Exceptions and results *)

Inductive exn : Type :=
| IndexError (msg : string)
| KeyError (key : string)
| AttributeError (msg : string)
| TypeError (msg : string)
| FactoryError (form : string)
| UnusedInputError (name : string).

Inductive result (A : Type) : Type :=
| Ok (a : A)
| Raise (e : exn).
Arguments Ok {A} a.
Arguments Raise {A} e.

#[global] Instance result_ret : MRet result := @Ok.
#[global] Instance result_bind : MBind result := fun A B f m =>
  match m with
  | Ok a => f a
  | Raise e => Raise e
  end.
#[global] Instance result_fmap : FMap result := fun A B f m =>
  match m with
  | Ok a => Ok (f a)
  | Raise e => Raise e
  end.

(** [foldM f l a]: a Python [for] loop over [l] whose body [f] threads the
    accumulated state and may raise. *)
Fixpoint foldM {A B : Type} (f : A -> B -> result A) (l : list B) (a : A)
  : result A :=
  match l with
  | [] => Ok a
  | b :: l' => a' ← f a b; foldM f l' a'
  end.

(** ** Python sequences *)

(** [l[start:]] for a possibly negative [start]. *)
Definition slice_from {A : Type} (start : Z) (l : list A) : list A :=
  let n := Z.of_nat (length l) in
  let s := if start <? 0 then Z.max 0 (n + start) else Z.min start n in
  drop (Z.to_nat s) l.

(** [l[:-1]]. *)
Definition slice_init {A : Type} (l : list A) : list A :=
  take (length l - 1)%nat l.

(** [l[1:-1]]. *)
Definition slice_inner {A : Type} (l : list A) : list A :=
  drop 1 (slice_init l).

(** [l[-1]]. *)
Definition index_last {A : Type} (l : list A) : result A :=
  match last l with
  | Some a => Ok a
  | None => Raise (IndexError "list index out of range")
  end.

(** [list(enumerate(l))]. *)
Definition enumerate {A : Type} (l : list A) : list (nat * A) :=
  imap (fun i a => (i, a)) l.

(** ** Python strings *)

Definition lower_ascii (c : ascii) : ascii :=
  let n := nat_of_ascii c in
  if ((65 <=? n) && (n <=? 90))%nat then ascii_of_nat (n + 32) else c.

(** [s.lower()] on ASCII text. *)
Fixpoint lower (s : string) : string :=
  match s with
  | EmptyString => EmptyString
  | String c s' => String (lower_ascii c) (lower s')
  end.

(** ** Numbers given as options

    The build-time options ([input_noise], [hidden_dropouts], the
    regularisation weights, ...) are Python numbers.  An [int] is carried by
    its value.  A [float] is carried by the literal that [repr] prints for it,
    the shortest one that reads back as the same float: distinct floats have
    distinct literals, so nothing is lost, and no binary floating-point
    arithmetic is needed to render an option mapping. *)

Inductive pynum : Type :=
| PyInt (z : Z)
| PyFloat (lit : string).

(** ** Theano expressions *)

Definition handle := nat.

Inductive expr : Type :=
| Matrix (name : string)                 (* TT.matrix(name) *)
| Shared (p : handle)                    (* a shared parameter variable *)
| Const (c : pynum)                      (* a Python number, e.g. the 0 of sum() *)
| Cast (c : pynum)                       (* TT.cast(c, FLOAT) *)
| Add (a b : expr)
| Sub (a b : expr)
| Mul (a b : expr)
| Div (a b : expr)
| Abs (a : expr)
| Sqr (a : expr)                         (* TT.sqr *)
| Sum (a : expr)                         (* a.sum() *)
| Mean (a : expr)                        (* a.mean() *)
| MeanAxis0 (a : expr)                   (* a.mean(axis=0) *)
| Grad (cost wrt : expr)                 (* TT.grad(cost, wrt) *)
| LayerOut (layer : string) (grouped : bool) (inputs : list expr)
           (noise dropout : pynum).      (* built by a layer's output() *)

Definition monitor : Type := string * expr.
Definition update : Type := expr * expr.

(** ** Layers

    What this module reads of a layer object: its class name, [name], [size],
    [params] and [outputs['out']].  The parameters are handles on shared
    variables, whose values live in a store of their own; the size of a
    constructed layer is an integer, whatever the factory was asked. *)

Record Layer : Type := mkLayer {
  layer_class : string;
  layer_name : string;
  layer_size : Z;
  layer_params : list handle;
  layer_out : expr;
}.

(** ** Python objects met in a layer specification *)

Inductive pyobj : Type :=
| VNone
| VBool (b : bool)
| VInt (z : Z)
| VStr (s : string)
| VTuple (els : list pyobj)
| VList (els : list pyobj)
| VDict (items : list (string * pyobj))
| VClass (name : string) (layer_subclass : bool)
| VLayer (l : Layer)
| VExpr (e : expr)
| VRng (seed : nat).

(** [isinstance(v, int)]; [bool] is a subclass of [int]. *)
Definition is_int (v : pyobj) : bool :=
  match v with
  | VInt _ | VBool _ => true
  | _ => false
  end.

(** Truth value of an object, as [or] and [bool()] take it. *)
Definition truthy (v : pyobj) : bool :=
  match v with
  | VNone => false
  | VBool b => b
  | VInt z => negb (z =? 0)
  | VStr s => negb (String.eqb s EmptyString)
  | VTuple els | VList els => negb (Nat.eqb (length els) 0)
  | VDict items => negb (Nat.eqb (length items) 0)
  | _ => true
  end.

(** [d.update(items)] on a dict with string keys: later entries win. *)
Definition dict_update (d : gmap string pyobj) (items : list (string * pyobj))
  : gmap string pyobj :=
  foldl (fun m kv => <[kv.1 := kv.2]> m) d items.

(** ** Construction options: [self.kwargs]

    The keys this module reads, each one absent ([None]) or present with a
    value of its documented type. *)

Record options : Type := mkOptions {
  opt_layers : option (list pyobj);
  opt_hidden_activation : option string;
  opt_output_activation : option string;
  opt_rng : option pyobj;
  opt_weighted : option bool;
  opt_decode_from : option Z;
}.

Definition with_layers (kw : options) (specs : list pyobj) : options :=
  mkOptions (Some specs) (opt_hidden_activation kw) (opt_output_activation kw)
            (opt_rng kw) (opt_weighted kw) (opt_decode_from kw).

(** [[l.size for l in layers]]. *)
Definition layer_sizes (ls : list Layer) : list Z := layer_size <$> ls.

(** A call of the layer factory: [layers.build(form, *args, **kwargs)]. *)
Record request : Type := mkRequest {
  req_form : string;
  req_args : list pyobj;
  req_kwargs : gmap string pyobj;
}.

(** [RandomStreams()]: a new random stream. *)
Definition RandomStreams : pyobj := VRng 0.

(** ** The Python heap

    The objects this module builds and shares by reference: the three lists of
    a computation graph, the tuple that groups them, and compiled functions.
    A [loc] is the identity of an object. *)

Definition loc := nat.

Inductive cell : Type :=
| COutputs (l : list expr)
| CMonitors (l : list monitor)
| CUpdates (l : list update)
| CTuple (outputs monitors updates : loc)
| CFunction (inputs outputs : list expr) (updates : list update).

Record heap : Type := mkHeap {
  cells : gmap loc cell;
  next : loc;
}.

Definition empty_heap : heap := mkHeap ∅ 0%nat.

Definition alloc (c : cell) (h : heap) : loc * heap :=
  (next h, mkHeap (<[next h := c]> (cells h)) (S (next h))).

Definition store_cell (l : loc) (c : cell) (h : heap) : heap :=
  mkHeap (<[l := c]> (cells h)) (next h).

(** ** The network object *)

Record Network : Type := mkNetwork {
  net_kwargs : options;                 (* self.kwargs *)
  net_x : expr;                         (* self.x *)
  net_weights : expr;                   (* self.weights *)
  net_inputs : list expr;               (* self.inputs *)
  net_layers : list Layer;              (* self.layers *)
  _graphs : gmap string loc;            (* self._graphs *)
  _functions : gmap string loc;         (* self._functions *)
}.

Definition set_graphs (g : gmap string loc) (net : Network) : Network :=
  mkNetwork (net_kwargs net) (net_x net) (net_weights net) (net_inputs net)
            (net_layers net) g (_functions net).

Definition set_functions (f : gmap string loc) (net : Network) : Network :=
  mkNetwork (net_kwargs net) (net_x net) (net_weights net) (net_inputs net)
            (net_layers net) (_graphs net) f.

(** What a layer is given as [inputs]: one expression, or a Python list. *)
Inductive graph_input : Type :=
| Single (e : expr)
| Group (es : list expr).

(** Keyword arguments of [build_graph], [feed_forward] and [loss], in the
    order they were written in the call. *)
Definition keywords : Type := list (string * pynum).

(** [kwargs.get(key)]. *)
Fixpoint kwargs_get (key : string) (kwargs : keywords) : option pynum :=
  match kwargs with
  | [] => None
  | (k, v) :: kwargs' => if String.eqb k key then Some v else kwargs_get key kwargs'
  end.

(** ** Rendering an option mapping: [str(kwargs)] *)

Definition repr_num (v : pynum) : string :=
  match v with
  | PyInt z => pretty z
  | PyFloat lit => lit
  end.

Definition repr_item (kv : string * pynum) : string :=
  "'" +:+ kv.1 +:+ "': " +:+ repr_num kv.2.

Fixpoint repr_items (kwargs : keywords) : string :=
  match kwargs with
  | [] => EmptyString
  | [kv] => repr_item kv
  | kv :: kwargs' => repr_item kv +:+ ", " +:+ repr_items kwargs'
  end.

Definition str_dict (kwargs : keywords) : string :=
  "{" +:+ repr_items kwargs +:+ "}".


(** *** Well-formed option mappings

    A keyword is an identifier, so it holds no quote; a float literal is made
    of the characters of [repr(float)] (digits, sign, point, exponent mark,
    [inf], [nan]) and is not an integer literal. *)







(** ** Ordering of option values: [v > 0] *)

Definition is_nonzero_digit (c : ascii) : bool :=
  let n := nat_of_ascii c in ((49 <=? n) && (n <=? 57))%nat.

(** Whether the mantissa of a float literal (the part before an exponent
    mark) has a digit other than 0. *)
Fixpoint mantissa_nonzero (lit : string) : bool :=
  match lit with
  | EmptyString => false
  | String c lit' =>
      if Ascii.eqb c "e" then false
      else is_nonzero_digit c || mantissa_nonzero lit'
  end.

Definition positive_num (v : pynum) : bool :=
  match v with
  | PyInt z => 0 <? z
  | PyFloat lit =>
      match lit with
      | String "-" _ => false
      | _ => String.eqb lit "inf" || mantissa_nonzero lit
      end
  end.

(** ** [hashlib.md5]

    The digest of RFC 1321 on byte strings; [hexdigest] is what
    [hashlib.md5(s).hexdigest()] returns. *)

Module MD5.

Definition mask32 : Z := 4294967295.
Definition add32 (a b : Z) : Z := Z.land (a + b) mask32.
Definition not32 (a : Z) : Z := Z.lxor a mask32.
Definition rotl32 (x c : Z) : Z :=
  Z.lor (Z.land (Z.shiftl x c) mask32) (Z.shiftr x (32 - c)).

Definition shifts : list Z :=
  [7; 12; 17; 22; 7; 12; 17; 22; 7; 12; 17; 22; 7; 12; 17; 22;
   5; 9; 14; 20; 5; 9; 14; 20; 5; 9; 14; 20; 5; 9; 14; 20;
   4; 11; 16; 23; 4; 11; 16; 23; 4; 11; 16; 23; 4; 11; 16; 23;
   6; 10; 15; 21; 6; 10; 15; 21; 6; 10; 15; 21; 6; 10; 15; 21].

Definition sines : list Z :=
  [3614090360; 3905402710; 606105819; 3250441966;
   4118548399; 1200080426; 2821735955; 4249261313;
   1770035416; 2336552879; 4294925233; 2304563134;
   1804603682; 4254626195; 2792965006; 1236535329;
   4129170786; 3225465664; 643717713; 3921069994;
   3593408605; 38016083; 3634488961; 3889429448;
   568446438; 3275163606; 4107603335; 1163531501;
   2850285829; 4243563512; 1735328473; 2368359562;
   4294588738; 2272392833; 1839030562; 4259657740;
   2763975236; 1272893353; 4139469664; 3200236656;
   681279174; 3936430074; 3572445317; 76029189;
   3654602809; 3873151461; 530742520; 3299628645;
   4096336452; 1126891415; 2878612391; 4237533241;
   1700485571; 2399980690; 4293915773; 2240044497;
   1873313359; 4264355552; 2734768916; 1309151649;
   4149444226; 3174756917; 718787259; 3951481745].

Definition state : Type := Z * Z * Z * Z.

Definition init : state := (1732584193, 4023233417, 2562383102, 271733878).

(** Little-endian value of a run of bytes. *)
Fixpoint le_word (bytes : list Z) : Z :=
  match bytes with
  | [] => 0
  | b :: bytes' => b + 256 * le_word bytes'
  end.

(** The [n] low bytes of [x], least significant first. *)
Fixpoint le_bytes (n : nat) (x : Z) : list Z :=
  match n with
  | O => []
  | S n' => x mod 256 :: le_bytes n' (x / 256)
  end.

Fixpoint chunks {A : Type} (size count : nat) (l : list A) : list (list A) :=
  match count with
  | O => []
  | S count' => take size l :: chunks size count' (drop size l)
  end.

Definition round (m : list Z) (st : state) (i : nat) : state :=
  let '(a, b, c, d) := st in
  let '(f, g) :=
    if (i <? 16)%nat then (Z.lor (Z.land b c) (Z.land (not32 b) d), i)
    else if (i <? 32)%nat then
      (Z.lor (Z.land d b) (Z.land (not32 d) c), ((5 * i + 1) mod 16)%nat)
    else if (i <? 48)%nat then (Z.lxor (Z.lxor b c) d, ((3 * i + 5) mod 16)%nat)
    else (Z.lxor c (Z.lor b (not32 d)), ((7 * i) mod 16)%nat) in
  let f := add32 (add32 (add32 f a) (default 0 (sines !! i))) (default 0 (m !! g)) in
  (d, add32 b (rotl32 f (default 0 (shifts !! i))), b, c).

Definition compress (st : state) (block : list Z) : state :=
  let m := le_word <$> chunks 4 16 block in
  let '(a, b, c, d) := st in
  let '(a', b', c', d') := foldl (round m) st (seq 0 64) in
  (add32 a a', add32 b b', add32 c c', add32 d d').

Definition pad (msg : list Z) : list Z :=
  let n := length msg in
  let zeros := ((119 - n mod 64) mod 64)%nat in
  msg ++ [128] ++ replicate zeros 0
      ++ le_bytes 8 ((8 * Z.of_nat n) mod 2 ^ 64).

Definition hex_digit (n : Z) : ascii :=
  ascii_of_nat (Z.to_nat (if n <? 10 then 48 + n else 87 + n)).

Definition hex_byte (b : Z) : string :=
  String (hex_digit (b / 16)) (String (hex_digit (b mod 16)) EmptyString).

Definition bytes_of_string (s : string) : list Z :=
  (fun c => Z.of_nat (nat_of_ascii c)) <$> list_ascii_of_string s.

(** [hashlib.md5(s).hexdigest()]. *)
Definition hexdigest (s : string) : string :=
  let padded := pad (bytes_of_string s) in
  let blocks := chunks 64 (length padded / 64) padded in
  let '(a, b, c, d) := foldl compress init blocks in
  String.concat EmptyString
    (hex_byte <$> (le_bytes 4 a ++ le_bytes 4 b ++ le_bytes 4 c ++ le_bytes 4 d)).

End MD5.


(** ** Tensors

    The values of the operators that [Network.error] uses, over exact
    rationals: a matrix operand or a scalar one.  Operands of different
    shapes, a division by zero (the mean of an empty matrix is one), and the
    operators [error] does not use, have no value here. *)

Inductive tensor : Type :=
| TScalar (q : Q)
| TMatrix (rows : list (list Q)).

Definition same_shape (a b : list (list Q)) : bool :=
  bool_decide (length <$> a = length <$> b).

Definition elementwise (f : Q -> Q -> Q) (a b : tensor) : option tensor :=
  match a, b with
  | TScalar p, TScalar q => Some (TScalar (f p q))
  | TMatrix m, TMatrix n =>
      if same_shape m n then Some (TMatrix (zip_with (zip_with f) m n))
      else None
  | _, _ => None
  end.

Definition total (rows : list (list Q)) : Q :=
  foldr Qplus 0%Q (concat rows).

Definition count (rows : list (list Q)) : Q :=
  inject_Z (Z.of_nat (length (concat rows))).

Definition nonzero (q : Q) : bool := negb (Qeq_bool q 0).

(** Division has no rational value when a divisor is 0 (the engine gives
    [nan] or [inf]). *)
Definition quotient (a b : tensor) : option tensor :=
  match a, b with
  | TScalar p, TScalar q =>
      if nonzero q then Some (TScalar (p / q)) else None
  | TMatrix m, TMatrix n =>
      if same_shape m n && forallb (forallb nonzero) n
      then Some (TMatrix (zip_with (zip_with Qdiv) m n))
      else None
  | _, _ => None
  end.

Fixpoint eval (env : string -> option tensor) (e : expr) : option tensor :=
  match e with
  | Matrix name => env name
  | Add a b => a ← eval env a; b ← eval env b; elementwise Qplus a b
  | Sub a b => a ← eval env a; b ← eval env b; elementwise Qminus a b
  | Mul a b => a ← eval env a; b ← eval env b; elementwise Qmult a b
  | Div a b => a ← eval env a; b ← eval env b; quotient a b
  | Sum a =>
      a ← eval env a;
      match a with
      | TMatrix rows => Some (TScalar (total rows))
      | TScalar q => Some (TScalar q)
      end
  | Mean a =>
      a ← eval env a;
      match a with
      | TMatrix rows =>
          if nonzero (count rows) then Some (TScalar (total rows / count rows))
          else None
      | TScalar q => Some (TScalar q)
      end
  | _ => None
  end.

(** The formulas of the specification, on matrices: [(y - x) ** 2] and
    [w * (y - x) ** 2], element by element. *)
Definition squared_error (y x : list (list Q)) : list (list Q) :=
  zip_with (zip_with (fun b a => ((b - a) ^ 2)%Q)) y x.

Definition weighted_squared_error (w y x : list (list Q)) : list (list Q) :=
  zip_with (zip_with Qmult) w (squared_error y x).

(** The data a compiled function is called with: the input [x], the network
    output [y] and the weights [w]. *)
Definition feed (x y w : list (list Q)) (name : string) : option tensor :=
  if String.eqb name "x" then Some (TMatrix x)
  else if String.eqb name "y" then Some (TMatrix y)
  else if String.eqb name "weights" then Some (TMatrix w)
  else None.

(** ** Persisted records

    What [save] pickles: the class, the construction options, and under the
    key ['{name}-values'] the parameter values of each layer.  A key of that
    shape never equals ['klass'] or ['kwargs'], so the three parts are kept
    apart. *)

Definition ndarray : Type := list (list Q).

Record record : Type := mkRecord {
  rec_klass : string;
  rec_kwargs : options;
  rec_values : gmap string (list ndarray);
}.

(** ** Sample collaborators

    Used to run the embedding on concrete networks. *)

Definition capitalize (s : string) : string :=
  match s with
  | EmptyString => EmptyString
  | String c s' =>
      let n := nat_of_ascii c in
      String (if ((97 <=? n) && (n <=? 122))%nat then ascii_of_nat (n - 32) else c) s'
  end.

(** Modelled from the spec: the form registry [layers.Layer._registry] of
    module [layers], which is not among the sources.  It holds the forms the
    specification names: [input], [feedforward], [rnn], [bidirectional]. *)
Definition spec_registry : gset string :=
  {[ "input"; "feedforward"; "rnn"; "bidirectional" ]}.

(** Modelled from the spec: the layer factory [layers.build(form, **kwargs)]
    of module [layers], which is not among the sources.  An unregistered form
    (matched case-insensitively) is a construction failure; otherwise the
    layer has the type named by the form, the requested [name] and the
    requested [size], which must be an integer (for the [input] form the size
    is the positional argument).  The specification does not say which
    parameters a form allocates: the layer built here has none. *)
Definition spec_build (req : request) : result Layer :=
  if decide (lower (req_form req) ∈ spec_registry) then
    let size :=
      match req_args req with
      | v :: _ => Some v
      | [] => req_kwargs req !! "size"
      end in
    match size, req_kwargs req !! "name" with
    | Some (VInt n), Some (VStr name) =>
        Ok (mkLayer (capitalize (lower (req_form req))) name n []
                    (Matrix (name +:+ ".out")))
    | _, _ => Raise (TypeError "layer size or name")
    end
  else Raise (FactoryError (req_form req)).

(** Modelled from the spec: [Layer.output(inputs, noise, dropout) ->
    (expression, monitors, updates)] of module [layers], which is not among
    the sources.  The expression is kept symbolic and records the arguments of
    the call; the layer reports one monitor and no update. *)
Definition spec_output (l : Layer) (inputs : graph_input) (noise dropout : pynum)
  : expr * list monitor * list update :=
  let out :=
    match inputs with
    | Single e => LayerOut (layer_name l) false [e] noise dropout
    | Group es => LayerOut (layer_name l) true es noise dropout
    end in
  (out, [(layer_name l +:+ ".mean", Mean out)], []).

(** [str] of objects without a fixed rendering. *)
Definition spec_str_object (v : pyobj) : string := "<object>".

(** *** Sample inputs *)

Definition sample_options (specs : list pyobj) (weighted : option bool)
           (back : option Z) : options :=
  mkOptions (Some specs) None None None weighted back.

(** A network object over given layers, as [__init__] leaves its other
    attributes. *)
Definition sample_network (kw : options) (ls : list Layer) : Network :=
  mkNetwork kw (Matrix "x") (Matrix "weights") [Matrix "x"] ls ∅ ∅.

Definition sample_layers : list Layer :=
  [mkLayer "Input" "in" 4 [] (Matrix "in.out");
   mkLayer "Feedforward" "hid1" 3 [0; 1]%nat (Matrix "hid1.out");
   mkLayer "Feedforward" "out" 4 [2; 3]%nat (Matrix "out.out")].

(** A record that lacks the entry of layer [hid1]. *)
Definition sample_record : record :=
  mkRecord "Network" (sample_options [VInt 4; VInt 3; VInt 4] None None)
           (<["in-values" := []]>
            (<["out-values" := [[[1; 2]]; [[3]]]%Q]> ∅)).

(** ** Well-formed caches *)

(** Cells of the same kind; a tuple is immutable. *)
Definition same_kind (c c' : cell) : Prop :=
  match c, c' with
  | COutputs _, COutputs _ => True
  | CMonitors _, CMonitors _ => True
  | CUpdates _, CUpdates _ => True
  | CTuple o m u, CTuple o' m' u' => o = o' /\ m = m' /\ u = u'
  | CFunction _ _ _, CFunction _ _ _ => True
  | _, _ => False
  end.

(** Every object of [h] is still there in [h'], with its kind. *)
Definition heap_le (h h' : heap) : Prop :=
  forall l c, cells h !! l = Some c ->
              exists c', cells h' !! l = Some c' /\ same_kind c c'.

Definition is_graph (h : heap) (t : loc) : Prop :=
  exists o m u outputs monitors updates,
    cells h !! t = Some (CTuple o m u) /\
    cells h !! o = Some (COutputs outputs) /\
    cells h !! m = Some (CMonitors monitors) /\
    cells h !! u = Some (CUpdates updates).

Definition is_function (h : heap) (f : loc) : Prop :=
  exists inputs outputs updates,
    cells h !! f = Some (CFunction inputs outputs updates).

(** No two keys share an object. *)
Definition separate (cache : gmap string loc) : Prop :=
  forall k1 k2 l, cache !! k1 = Some l -> cache !! k2 = Some l -> k1 = k2.

Record cache_ok (st : Network * heap) : Prop := mkCacheOk {
  ok_bounded : forall l c, cells st.2 !! l = Some c -> (l < next st.2)%nat;
  ok_graphs : forall k t, _graphs st.1 !! k = Some t -> is_graph st.2 t;
  ok_functions : forall k f, _functions st.1 !! k = Some f -> is_function st.2 f;
  ok_graphs_separate : separate (_graphs st.1);
  ok_functions_separate : separate (_functions st.1);
  ok_functions_graphs :
    forall k f, _functions st.1 !! k = Some f -> is_Some (_graphs st.1 !! k);
}.

(** ** Specifications the builder can read

    A mapping that has a [form] entry must hold a string there: the builder
    calls its [lower] method. *)
Definition readable_spec (spec : pyobj) : Prop :=
  forall items v,
    spec = VDict items -> dict_update ∅ items !! "form" = Some v ->
    exists s, v = VStr s.

(** ** Two encodings of a layer size

    Following the specification's words: a specification element is written
    either as a bare integer [n] or as the mapping [{'size': n}]. *)

Inductive same_size_encoding : pyobj -> pyobj -> Prop :=
| same_element (v : pyobj) : same_size_encoding v v
| int_as_mapping (n : Z) :
    same_size_encoding (VInt n) (VDict [("size", VInt n)])
| mapping_as_int (n : Z) :
    same_size_encoding (VDict [("size", VInt n)]) (VInt n).

Section Network.

#[local] Set Default Proof Using "Type".

(** [layers.build]: the layer factory. *)
Variable build : request -> result Layer.
(** [layers.Layer._registry]: the lower-case names of the registered forms. *)
Variable registry : gset string.
(** [layer.output(inputs, noise=noise, dropout=dropout)]. *)
Variable layer_output :
  Layer -> graph_input -> pynum -> pynum -> expr * list monitor * list update.
(** [str(v)] for the objects whose rendering Python does not fix (instances,
    containers of them). *)
Variable str_object : pyobj -> string.

(** ['{}'.format(v)]. *)
Definition format (v : pyobj) : string :=
  match v with
  | VStr s => s
  | VInt z => pretty z
  | VBool true => "True"
  | VBool false => "False"
  | VNone => "None"
  | _ => str_object v
  end.

(** *** Properties of [Network] *)

Definition is_weighted (kw : options) : bool :=
  match opt_weighted kw with
  | Some b => b
  | None => false
  end.

Definition output_activation (kw : options) : string :=
  default "linear" (opt_output_activation kw).

Definition encoding_layers (kw : options) : result (list pyobj) :=
  match opt_layers kw with
  | Some specs => Ok (slice_init specs)
  | None => Raise (KeyError "layers")
  end.

(** *** [setup_vars] *)

Record variables : Type := mkVariables {
  var_x : expr;
  var_weights : expr;
}.

(** Returns the attributes it sets ([self.x], [self.weights]) and the list
    it returns. *)
Definition setup_vars (kw : options) : variables * list expr :=
  let x := Matrix "x" in
  let weights := Matrix "weights" in
  (mkVariables x weights,
   if is_weighted kw then [x; weights] else [x]).

(** *** [setup_decoder] *)

Definition decode_from (kw : options) : Z := default 1 (opt_decode_from kw).

(** The arguments [setup_decoder] hands to the factory. *)
Definition decoder_request (kw : options) (ls : list Layer) : result request :=
  let sizes := layer_sizes ls in
  let back := decode_from kw in
  nin ← (if back <=? 1 then VInt <$> index_last sizes
         else Ok (VList (VInt <$> slice_from (- back) sizes)));
  specs ← match opt_layers kw with
          | Some specs => Ok specs
          | None => Raise (KeyError "layers")
          end;
  size ← index_last specs;
  Ok (mkRequest "feedforward" []
        (<["activation" := VStr (output_activation kw)]>
         (<["size" := size]>
          (<["nin" := nin]>
           (<["name" := VStr "out"]> ∅))))).

Definition setup_decoder (kw : options) (ls : list Layer)
  : result (list Layer) :=
  req ← decoder_request kw ls;
  l ← build req;
  Ok (ls ++ [l]).

(** *** [setup_layers] *)

(** The loop over the elements of a tuple or list specification. *)
Definition scan_element (acc : string * gmap string pyobj) (el : pyobj)
  : string * gmap string pyobj :=
  let '(form, kwargs) := acc in
  let form :=
    match el with
    | VClass name true => name
    | _ => form
    end in
  let '(form, kwargs) :=
    match el with
    | VStr s =>
        if decide (lower s ∈ registry) then (s, kwargs)
        else (form, <["activation" := el]> kwargs)
    | _ => (form, kwargs)
    end in
  let kwargs := if is_int el then <["size" := el]> kwargs else kwargs in
  (form, kwargs).

(** The factory call for one encoder specification that is not a [Layer]
    instance; [ls] is [self.layers] at that point. *)
Definition encoder_request (kw : options) (rng : pyobj) (ls : list Layer)
           (spec : pyobj) : result request :=
  let count := pretty (length ls) in
  let form := "feedforward" in
  prev ← index_last ls;
  let kwargs : gmap string pyobj :=
    <["rng" := rng]>
    (<["activation" := VStr (default "logistic" (opt_hidden_activation kw))]>
     (<["inputs" := VDict [(layer_name prev +:+ ".out", VExpr (layer_out prev))]]>
      (<["name" := VStr ("hid" +:+ count)]> ∅))) in
  let kwargs := if is_int spec then <["size" := spec]> kwargs else kwargs in
  let '(form, kwargs) :=
    match spec with
    | VTuple els | VList els =>
        let '(form, kwargs) := foldl scan_element (form, kwargs) els in
        (form, <["name" := VStr (form +:+ count)]> kwargs)
    | _ => (form, kwargs)
    end in
  '(form, kwargs) ←
    match spec with
    | VDict items =>
        '(form, kwargs) ←
          match dict_update ∅ items !! "form" with
          | Some (VStr s) =>
              let form := lower s in
              Ok (form, <["name" := VStr (form +:+ count)]> kwargs)
          | Some _ => Raise (AttributeError "lower")
          | None => Ok (form, kwargs)
          end;
        Ok (form, dict_update kwargs items)
    | _ => Ok (form, kwargs)
    end;
  let kwargs :=
    if String.eqb (lower form) "bidirectional"
    then <["name" := VStr ("bd" +:+ format (default (VStr "rnn") (kwargs !! "worker")) +:+ count)]> kwargs
    else kwargs in
  Ok (mkRequest form [] kwargs).

(** The body of the loop over the encoder specifications. *)
Definition encoder_step (kw : options) (rng : pyobj) (ls : list Layer)
           (spec : pyobj) : result (list Layer) :=
  match spec with
  | VLayer l => Ok (ls ++ [l])
  | _ =>
      req ← encoder_request kw rng ls spec;
      l ← build req;
      Ok (ls ++ [l])
  end.

(** [ls] is [self.layers] on entry (the constructor passes the empty list). *)
Definition setup_layers (kw : options) (ls : list Layer)
  : result (list Layer) :=
  match opt_layers kw with
  | None => Ok ls
  | Some _ =>
      specs ← encoding_layers kw;
      let rng :=
        match opt_rng kw with
        | Some r => if truthy r then r else RandomStreams
        | None => RandomStreams
        end in
      match specs with
      | [] => Raise (IndexError "pop from empty list")
      | first :: specs =>
          l ← build (mkRequest "input" [first]
                       (<["name" := VStr "in"]> (<["rng" := rng]> ∅)));
          ls ← foldM (encoder_step kw rng) specs (ls ++ [l]);
          setup_decoder kw ls
      end
  end.



(** *** [__init__] *)

Definition __init__ (kw : options) : result Network :=
  let '(vars, inputs) := setup_vars kw in
  ls ← setup_layers kw [];
  Ok (mkNetwork kw (var_x vars) (var_weights vars) inputs ls ∅ ∅).

(** *** [error] *)

Definition error (net : Network) (output : expr) : expr :=
  let err := Sub output (net_x net) in
  if is_weighted (net_kwargs net)
  then Div (Sum (Mul (Mul (net_weights net) err) err)) (Sum (net_weights net))
  else Mean (Mul err err).

(** *** [_hash] *)

(** Everything [add] feeds to the digest, in order. *)
Definition hash_input (net : Network) (kwargs : keywords) : string :=
  str_dict kwargs +:+
  String.concat EmptyString
    ((fun l => layer_class l +:+ layer_name l +:+ pretty (layer_size l))
       <$> net_layers net).

Definition _hash (net : Network) (kwargs : keywords) : string :=
  MD5.hexdigest (hash_input net kwargs).

(** *** [build_graph] *)

Definition option_or_zero (key : string) (kwargs : keywords) : pynum :=
  default (PyInt 0) (kwargs_get key kwargs).

(** The [if]/[elif]/[else] of the loop body: what layer [i] is called with,
    given the outputs gathered so far. *)
Definition layer_args (net : Network) (kwargs : keywords) (i : nat)
           (outputs : list expr) : result (graph_input * pynum * pynum) :=
  if Z.of_nat i =? 0 then
    Ok (Single (net_x net),
        option_or_zero "input_noise" kwargs,
        option_or_zero "input_dropouts" kwargs)
  else if Z.of_nat i =? Z.of_nat (length (net_layers net)) - 1 then
    Ok (Group (slice_from (- decode_from (net_kwargs net)) outputs),
        option_or_zero "hidden_noise" kwargs,
        option_or_zero "hidden_dropouts" kwargs)
  else
    out ← index_last outputs;
    Ok (Single out, PyInt 0, PyInt 0).

Definition graph_step (net : Network) (kwargs : keywords)
           (acc : list expr * list monitor * list update) (il : nat * Layer)
  : result (list expr * list monitor * list update) :=
  let '(outputs, monitors, updates) := acc in
  let '(i, layer) := il in
  '(inputs, noise, dropout) ← layer_args net kwargs i outputs;
  let '(out, mon, upd) := layer_output layer inputs noise dropout in
  Ok (outputs ++ [out], monitors ++ mon, updates ++ upd).

(** The loop run on a cache miss. *)
Definition graph (net : Network) (kwargs : keywords)
  : result (list expr * list monitor * list update) :=
  foldM (graph_step net kwargs) (enumerate (net_layers net)) ([], [], []).

Definition build_graph (kwargs : keywords) (st : Network * heap)
  : result loc * (Network * heap) :=
  let '(net, h) := st in
  let key := _hash net kwargs in
  match _graphs net !! key with
  | Some t => (Ok t, st)
  | None =>
      match graph net kwargs with
      | Raise e => (Raise e, st)
      | Ok (outputs, monitors, updates) =>
          let '(o, h) := alloc (COutputs outputs) h in
          let '(m, h) := alloc (CMonitors monitors) h in
          let '(u, h) := alloc (CUpdates updates) h in
          let '(t, h) := alloc (CTuple o m u) h in
          (Ok t, (set_graphs (<[key := t]> (_graphs net)) net, h))
      end
  end.

(** Reading the objects of a graph tuple. *)
Definition unpack (h : heap) (t : loc) : result (loc * loc * loc) :=
  match cells h !! t with
  | Some (CTuple o m u) => Ok (o, m, u)
  | _ => Raise (TypeError "cannot unpack")
  end.

Definition read_outputs (h : heap) (o : loc) : result (list expr) :=
  match cells h !! o with
  | Some (COutputs l) => Ok l
  | _ => Raise (TypeError "not a list of outputs")
  end.

Definition read_monitors (h : heap) (m : loc) : result (list monitor) :=
  match cells h !! m with
  | Some (CMonitors l) => Ok l
  | _ => Raise (TypeError "not a list of monitors")
  end.

Definition read_updates (h : heap) (u : loc) : result (list update) :=
  match cells h !! u with
  | Some (CUpdates l) => Ok l
  | _ => Raise (TypeError "not a list of updates")
  end.

(** On a miss the three lists and the tuple are allocated in this order. *)
Definition graph_cells (outputs : list expr) (monitors : list monitor)
           (updates : list update) (h : heap) : heap :=
  let n := next h in
  mkHeap (<[(3 + n)%nat := CTuple n (1 + n)%nat (2 + n)%nat]>
          (<[(2 + n)%nat := CUpdates updates]>
           (<[(1 + n)%nat := CMonitors monitors]>
            (<[n := COutputs outputs]> (cells h)))))
         (4 + n)%nat.

(** The monitors of a graph tuple, as a caller of [build_graph] reads them. *)
Definition graph_monitors (h : heap) (t : loc) : result (list monitor) :=
  '(_, m, _) ← unpack h t; read_monitors h m.

(** The outputs of a graph tuple. *)
Definition graph_outputs (h : heap) (t : loc) : result (list expr) :=
  '(o, _, _) ← unpack h t; read_outputs h o.

(** *** [feed_forward]

    Returns the compiled function that is then applied to the data; the call
    itself is the work of the evaluation engine. *)

(** [theano.function(inputs, outputs, updates=updates)].  The engine refuses
    an input that is not part of the computation ([UnusedInputError], which
    names the input).  A layer computes its output from what it is given, and
    the first layer is given [x]: an input is part of the computation as soon
    as there is an output or an update, and is not when there is none. *)
Definition variable_name (e : expr) : string :=
  match e with
  | Matrix name => name
  | _ => EmptyString
  end.

Definition theano_function (inputs outputs : list expr) (updates : list update)
  : result cell :=
  match inputs, outputs, updates with
  | input :: _, [], [] => Raise (UnusedInputError (variable_name input))
  | _, _, _ => Ok (CFunction inputs outputs updates)
  end.

Definition feed_forward (kwargs : keywords) (st : Network * heap)
  : result loc * (Network * heap) :=
  let key := _hash st.1 kwargs in
  match _functions st.1 !! key with
  | Some f => (Ok f, st)
  | None =>
      match build_graph kwargs st with
      | (Raise e, st) => (Raise e, st)
      | (Ok t, (net, h)) =>
          match ('(o, _, u) ← unpack h t;
                 outputs ← read_outputs h o;
                 updates ← read_updates h u;
                 Ok (outputs, updates)) with
          | Raise e => (Raise e, (net, h))
          | Ok (outputs, updates) =>
              match theano_function [net_x net] outputs updates with
              | Raise e => (Raise e, (net, h))
              | Ok c =>
                  let '(f, h) := alloc c h in
                  (Ok f, (set_functions (<[key := f]> (_functions net)) net, h))
              end
          end
      end
  end.

(** *** [save] and [load_params] *)

(** The state dict that [save] pickles; [params] gives the current value of
    each parameter. *)
Definition save (klass : string) (net : Network) (params : gmap handle ndarray)
  : record :=
  mkRecord klass (net_kwargs net)
    (foldl (fun state layer =>
              <[layer_name layer +:+ "-values" :=
                  (fun p => default [] (params !! p)) <$> layer_params layer]> state)
           ∅ (net_layers net)).

(** [for p, v in zip(ps, vs): p.set_value(v)]. *)
Definition set_values (ps : list handle) (vs : list ndarray)
           (params : gmap handle ndarray) : gmap handle ndarray :=
  foldl (fun params pv => <[pv.1 := pv.2]> params) params (zip ps vs).

(** [saved] is the unpickled record; the result pairs the outcome with the
    parameter values as the call leaves them, also when it raises. *)
Fixpoint load_layers (saved : record) (ls : list Layer)
         (params : gmap handle ndarray) : result () * gmap handle ndarray :=
  match ls with
  | [] => (Ok (), params)
  | layer :: ls' =>
      let key := layer_name layer +:+ "-values" in
      match rec_values saved !! key with
      | None => (Raise (KeyError key), params)
      | Some vs => load_layers saved ls' (set_values (layer_params layer) vs params)
      end
  end.

Definition load_params (saved : record) (net : Network)
           (params : gmap handle ndarray) : result () * gmap handle ndarray :=
  load_layers saved (net_layers net) params.

(** *** [extra_monitors] and [loss] *)

Definition extra_monitors (outputs : list expr) : list monitor := [].

(** [sum(terms)]: Python starts from the integer 0. *)
Definition py_sum (terms : list expr) : expr :=
  foldl Add (Const (PyInt 0)) terms.

Definition regularizers (net : Network) (hiddens : list expr)
  : list (string * list expr) :=
  let params := Shared <$> (mjoin (layer_params <$> net_layers net)) in
  [("weight_l1", (fun w => Sum (Abs w)) <$> params);
   ("weight_l2", (fun w => Sum (Mul w w)) <$> params);
   ("hidden_l1", (fun h => Sum (MeanAxis0 (Abs h))) <$> hiddens);
   ("hidden_l2", (fun h => Sum (MeanAxis0 (Mul h h))) <$> hiddens);
   ("contractive",
    (fun h => Sum (Sqr (Grad (Sum (MeanAxis0 h)) (net_x net)))) <$> hiddens)].

Definition regularization (net : Network) (kwargs : keywords)
           (hiddens : list expr) : list expr :=
  omap (fun we : string * list expr =>
          match kwargs_get we.1 kwargs with
          | Some v => if positive_num v then Some (Mul (Cast v) (py_sum we.2)) else None
          | None => None
          end)
       (regularizers net hiddens).

(** Returns the loss expression and the two lists, by reference, that the
    caller receives with it. *)
Definition loss (kwargs : keywords) (st : Network * heap)
  : result (expr * loc * loc) * (Network * heap) :=
  match build_graph kwargs st with
  | (Raise e, st) => (Raise e, st)
  | (Ok t, (net, h)) =>
      match ('(o, m, u) ← unpack h t;
             outputs ← read_outputs h o;
             last ← index_last outputs;
             monitors ← read_monitors h m;
             Ok (o, m, u, outputs, last, monitors)) with
      | Raise e => (Raise e, (net, h))
      | Ok (o, m, u, outputs, last, monitors) =>
          let err := error net last in
          (* monitors.insert(0, ('err', err)) *)
          let monitors := ("err", err) :: monitors in
          (* monitors.extend(self.extra_monitors(outputs)) *)
          let monitors := monitors ++ extra_monitors outputs in
          let h := store_cell m (CMonitors monitors) h in
          let hiddens := slice_inner outputs in
          (Ok (Add err (py_sum (regularization net kwargs hiddens)), m, u),
           (net, h))
      end
  end.

(** [o] is what layer [l] returned as its output expression. *)
Definition output_of (l : Layer) (o : expr) : Prop :=
  exists inputs noise dropout, o = (layer_output l inputs noise dropout).1.1.

(** ** Further operations of [Network] *)

(** *** [params] *)

Definition params (net : Network) : list handle :=
  mjoin (layer_params <$> net_layers net).

(** *** [find] *)

(** A reference to a layer or to a parameter: a position or a name. *)
Inductive ref : Type :=
| RefInt (i : Z)
| RefStr (s : string).

(** [l.find(param)], of module [layers]. *)
Variable layer_find : Layer -> ref -> result handle.

(** [layer == i or layer == l.name]. *)
Definition ref_matches (layer : ref) (i : nat) (l : Layer) : bool :=
  match layer with
  | RefInt z => z =? Z.of_nat i
  | RefStr s => String.eqb s (layer_name l)
  end.

(** What [KeyError(layer)] carries. *)
Definition ref_key (layer : ref) : string :=
  match layer with
  | RefInt z => pretty z
  | RefStr s => s
  end.

Fixpoint find_in (items : list (nat * Layer)) (layer param : ref)
  : result handle :=
  match items with
  | [] => Raise (KeyError (ref_key layer))
  | (i, l) :: items' =>
      if ref_matches layer i l then layer_find l param
      else find_in items' layer param
  end.

Definition find (net : Network) (layer param : ref) : result handle :=
  find_in (enumerate (net_layers net)) layer param.

(** *** [predict]

    [feed_forward(x)[-1]]: returns the compiled function that is called and
    the output expression, the last one of the function, whose value is
    returned. *)

Definition predict (st : Network * heap)
  : result (loc * expr) * (Network * heap) :=
  match feed_forward [] st with
  | (Raise e, st') => (Raise e, st')
  | (Ok f, st') =>
      match cells st'.2 !! f with
      | Some (CFunction _ outputs _) =>
          (out ← index_last outputs; Ok (f, out), st')
      | _ => (Raise (TypeError "not callable"), st')
      end
  end.

(** ** Sequences of calls *)

Inductive call : Type :=
| CallBuildGraph (kwargs : keywords)
| CallFeedForward (kwargs : keywords)
| CallLoss (kwargs : keywords)
| CallPredict.

(** The state a call leaves, whether it returns or raises. *)
Definition perform (st : Network * heap) (c : call) : Network * heap :=
  match c with
  | CallBuildGraph kwargs => (build_graph kwargs st).2
  | CallFeedForward kwargs => (feed_forward kwargs st).2
  | CallLoss kwargs => (loss kwargs st).2
  | CallPredict => (predict st).2
  end.

Definition run (calls : list call) (st : Network * heap) : Network * heap :=
  foldl perform st calls.

(** Objects other than monitors lists are not written after their creation. *)
Definition heap_keeps (h h' : heap) : Prop :=
  forall l c, cells h !! l = Some c ->
              (forall monitors, c <> CMonitors monitors) ->
              cells h' !! l = Some c.

(** Every compiled function was made from the graph cached under its key:
    it takes [x] and holds the outputs and the updates of that graph. *)
Definition functions_consistent (st : Network * heap) : Prop :=
  forall k f, _functions st.1 !! k = Some f ->
    exists t o m u outputs updates,
      _graphs st.1 !! k = Some t /\
      cells st.2 !! t = Some (CTuple o m u) /\
      cells st.2 !! o = Some (COutputs outputs) /\
      cells st.2 !! u = Some (CUpdates updates) /\
      cells st.2 !! f = Some (CFunction [net_x st.1] outputs updates).

(** ** The graph, layer by layer

    What the loop of [build_graph] gathers for the layers between the first
    and the last: each one is given the output before it, without noise and
    without dropout. *)
Fixpoint chain (prev : expr) (ls : list Layer)
  : list (expr * list monitor * list update) :=
  match ls with
  | [] => []
  | l :: ls' =>
      let r := layer_output l (Single prev) (PyInt 0) (PyInt 0) in
      r :: chain r.1.1 ls'
  end.

(** Every cached graph holds one output per layer, each the output its layer
    returned. *)
Definition graphs_shaped (st : Network * heap) : Prop :=
  forall k t, _graphs st.1 !! k = Some t ->
    exists o m u outputs,
      cells st.2 !! t = Some (CTuple o m u) /\
      cells st.2 !! o = Some (COutputs outputs) /\
      Forall2 output_of (net_layers st.1) outputs.

(** Every cached graph holds the outputs and the updates that the loop of
    [build_graph] computes for some options. *)
Definition graphs_computed (st : Network * heap) : Prop :=
  forall k t, _graphs st.1 !! k = Some t ->
    exists kwargs o m u outputs monitors updates,
      graph st.1 kwargs = Ok (outputs, monitors, updates) /\
      cells st.2 !! t = Some (CTuple o m u) /\
      cells st.2 !! o = Some (COutputs outputs) /\
      cells st.2 !! u = Some (CUpdates updates).


(** The attributes of a network other than its two caches. *)
Definition same_attributes (net net' : Network) : Prop :=
  net_kwargs net' = net_kwargs net /\ net_x net' = net_x net /\
  net_weights net' = net_weights net /\ net_inputs net' = net_inputs net /\
  net_layers net' = net_layers net.

(** ** A sample parameter lookup *)

(** Modelled from the spec: [Layer.find(ref) -> parameter handle] of module
    [layers], which is not among the sources.  A position is resolved in the
    parameter list of the layer; the layer record carries no parameter names,
    so a name is not found. *)
Definition spec_find (l : Layer) (param : ref) : result handle :=
  match param with
  | RefInt z =>
      match (if z <? 0 then None else layer_params l !! Z.to_nat z) with
      | Some p => Ok p
      | None => Raise (KeyError (pretty z))
      end
  | RefStr s => Raise (KeyError s)
  end.

(** * Properties *)

Arguments MD5.hexdigest : simpl never.

(** ** Results and loops *)

Lemma bind_Ok {A B : Type} (m : result A) (f : A -> result B) (b : B) :
  m ≫= f = Ok b -> exists a, m = Ok a /\ f a = Ok b.
Proof. destruct m as [a|e]; simpl; [eauto | discriminate]. Qed.

Lemma foldM_app {A B : Type} (f : A -> B -> result A) (l1 l2 : list B) (a : A) :
  foldM f (l1 ++ l2) a = foldM f l1 a ≫= foldM f l2.
Proof.
  revert a. induction l1 as [|b l1 IH]; intros a; simpl; [done|].
  destruct (f a b) as [a'|e]; simpl; [apply IH | done].
Qed.

Lemma foldM_ext {A B B' : Type} (f : A -> B -> result A) (g : A -> B' -> result A)
      (l : list B) (l' : list B') (a : A) :
  Forall2 (fun b b' => forall a, f a b = g a b') l l' ->
  foldM f l a = foldM g l' a.
Proof.
  intros H. revert a. induction H as [|b b' l l' Hb _ IH]; intros a; simpl; [done|].
  rewrite Hb. destruct (g a b'); simpl; [apply IH | done].
Qed.

(** ** Sequences *)

Lemma index_last_snoc {A : Type} (l : list A) (a : A) :
  index_last (l ++ [a]) = Ok a.
Proof. unfold index_last. by rewrite last_snoc. Qed.

Lemma index_last_Ok {A : Type} (l : list A) :
  l <> [] -> exists a, index_last l = Ok a.
Proof.
  intros H. unfold index_last. destruct (last l) as [a|] eqn:E; [eauto|].
  apply last_None in E. done.
Qed.

Lemma slice_init_snoc {A : Type} (l : list A) (a : A) :
  slice_init (l ++ [a]) = l.
Proof.
  unfold slice_init. rewrite length_app. simpl.
  replace (length l + 1 - 1)%nat with (length l) by lia.
  by rewrite take_app_length.
Qed.

Lemma slice_init_short {A : Type} (l : list A) :
  (length l < 2)%nat -> slice_init l = [].
Proof. destruct l as [|a [|b l]]; simpl; intros; [done | done | lia]. Qed.

(** For a positive count [k], [l[-k:]] is the last [k] elements of [l], all
    of [l] when it has fewer. *)
Lemma slice_from_neg {A : Type} (k : Z) (l : list A) :
  1 <= k -> slice_from (- k) l = drop (length l - Z.to_nat k) l.
Proof.
  intros Hk. unfold slice_from.
  destruct (Z.ltb_spec (- k) 0) as [_|]; [|lia].
  f_equal. lia.
Qed.

(** ** The topology builder *)

Lemma setup_decoder_snoc kw ls ls' :
  setup_decoder kw ls = Ok ls' -> exists l, ls' = ls ++ [l].
Proof.
  unfold setup_decoder. intros H.
  apply bind_Ok in H as (req & _ & H).
  apply bind_Ok in H as (l & _ & H).
  injection H as <-. eauto.
Qed.

Lemma encoder_step_snoc kw rng ls spec ls' :
  encoder_step kw rng ls spec = Ok ls' -> exists l, ls' = ls ++ [l].
Proof.
  assert (Hbuilt : forall r : result request,
             (r ≫= fun req => build req ≫= fun l => Ok (ls ++ [l])) = Ok ls' ->
             exists l, ls' = ls ++ [l]).
  { intros r H.
    apply bind_Ok in H as (req & _ & H).
    apply bind_Ok in H as (l & _ & H).
    injection H as <-. eauto. }
  unfold encoder_step. destruct spec; try apply Hbuilt.
  intros H. injection H as <-. eauto.
Qed.

Lemma encoder_loop_extends kw rng specs ls ls' :
  foldM (encoder_step kw rng) specs ls = Ok ls' ->
  exists added, ls' = ls ++ added /\ length added = length specs.
Proof.
  revert ls. induction specs as [|spec specs IH]; intros ls; simpl.
  - intros H. injection H as <-. exists []. by rewrite app_nil_r.
  - intros H. apply bind_Ok in H as (ls1 & H1 & H).
    apply encoder_step_snoc in H1 as (l & ->).
    apply IH in H as (added & -> & Hlen).
    exists (l :: added). rewrite <- app_assoc. simpl. auto.
Qed.

Lemma setup_layers_short kw specs ls :
  opt_layers kw = Some specs -> (length specs < 2)%nat ->
  setup_layers kw ls = Raise (IndexError "pop from empty list").
Proof.
  intros Hkw Hlen. unfold setup_layers, encoding_layers. rewrite Hkw. simpl.
  by rewrite slice_init_short.
Qed.

(** C7: when the [layers] option holds a topology of at least two elements
    and the network is constructed, it has as many layers as the topology has
    elements: the input layer, one layer per middle element, the decoder. *)
Theorem setup_layers_count (kw : options) (specs : list pyobj) (ls : list Layer) :
  opt_layers kw = Some specs ->
  (2 <= length specs)%nat ->
  setup_layers kw [] = Ok ls ->
  length ls = length specs /\
  exists l_in encoders l_out,
    ls = l_in :: encoders ++ [l_out] /\
    length encoders = (length specs - 2)%nat.
Proof.
  intros Hkw Hlen H. unfold setup_layers, encoding_layers in H.
  rewrite Hkw in H. simpl in H.
  destruct (slice_init specs) as [|first mid] eqn:Hspecs; [discriminate|].
  assert (Hmid : S (length mid) = (length specs - 1)%nat).
  { change (S (length mid)) with (length (first :: mid)). rewrite <- Hspecs.
    unfold slice_init. rewrite length_take. lia. }
  apply bind_Ok in H as (l_in & _ & H).
  apply bind_Ok in H as (ls1 & Hloop & Hdec).
  apply encoder_loop_extends in Hloop as (encoders & -> & Hencoders).
  apply setup_decoder_snoc in Hdec as (l_out & ->).
  split.
  - rewrite !length_app. simpl. lia.
  - exists l_in, encoders, l_out. split; [done | lia].
Qed.

(** Construction fails only where the factory refuses a request or a
    specification cannot be read. *)
Lemma encoder_request_Ok kw rng ls spec :
  ls <> [] -> readable_spec spec ->
  exists req, encoder_request kw rng ls spec = Ok req.
Proof.
  intros Hls Hspec. unfold encoder_request.
  destruct (index_last_Ok ls Hls) as [prev ->]. cbn [mbind result_bind].
  destruct spec; cbn [is_int mbind result_bind]; try by eexists.
  - destruct (foldl scan_element _ _) as [form kwargs]. by eexists.
  - destruct (foldl scan_element _ _) as [form kwargs]. by eexists.
  - destruct (dict_update ∅ items !! "form") as [v|] eqn:Hform;
      [|cbn [mbind result_bind]; by eexists].
    destruct (Hspec items v eq_refl Hform) as [s ->].
    cbn [mbind result_bind]. by eexists.
Qed.

Lemma encoder_loop_Ok kw rng specs ls :
  (forall req, exists l, build req = Ok l) ->
  ls <> [] -> Forall readable_spec specs ->
  exists ls', foldM (encoder_step kw rng) specs ls = Ok ls'.
Proof.
  intros Hbuild Hls Hspecs. revert ls Hls.
  induction Hspecs as [|spec specs Hspec _ IH]; intros ls Hls; [by eexists|].
  cbn [foldM].
  assert (Hstep : exists l, encoder_step kw rng ls spec = Ok (ls ++ [l])).
  { destruct (encoder_request_Ok kw rng ls spec Hls Hspec) as [req Hreq].
    destruct (Hbuild req) as [l Hl].
    unfold encoder_step. rewrite Hreq. cbn [mbind result_bind]. rewrite Hl.
    destruct spec; by eexists. }
  destruct Hstep as [l ->]. cbn [mbind result_bind].
  apply IH. by destruct ls.
Qed.

Lemma setup_layers_Ok kw specs :
  (forall req, exists l, build req = Ok l) ->
  opt_layers kw = Some specs -> (2 <= length specs)%nat ->
  Forall readable_spec specs ->
  exists ls, setup_layers kw [] = Ok ls.
Proof.
  intros Hbuild Hkw Hlen Hspecs.
  destruct (decide (specs = [])) as [->|Hne]; [simpl in Hlen; lia|].
  destruct (exists_last Hne) as (init & last & ->).
  unfold setup_layers, encoding_layers. rewrite Hkw. cbn [mbind result_bind].
  rewrite slice_init_snoc.
  destruct init as [|first mid]; [simpl in Hlen; lia|].
  destruct (Hbuild (mkRequest "input" [first]
                      (<["name" := VStr "in"]>
                       (<["rng" := match opt_rng kw with
                                   | Some r => if truthy r then r else RandomStreams
                                   | None => RandomStreams
                                   end]> ∅)))) as [l_in ->].
  cbn [mbind result_bind].
  destruct (encoder_loop_Ok kw
              match opt_rng kw with
              | Some r => if truthy r then r else RandomStreams
              | None => RandomStreams
              end mid ([] ++ [l_in]) Hbuild) as [ls Hloop]; [done| |].
  { apply Forall_app in Hspecs as [Hinit _]. by apply Forall_cons in Hinit as [_ ?]. }
  rewrite Hloop. cbn [mbind result_bind].
  apply encoder_loop_extends in Hloop as (added & -> & _).
  unfold setup_decoder, decoder_request. rewrite Hkw.
  destruct (index_last_Ok (layer_sizes (([] ++ [l_in]) ++ added))) as [n ->];
    [done|].
  destruct (decode_from kw <=? 1); cbn [mbind result_bind fmap result_fmap];
    change (first :: mid ++ [last]) with ((first :: mid) ++ [last]);
    rewrite index_last_snoc; cbn [mbind result_bind];
    match goal with |- context [build ?req] => destruct (Hbuild req) as [l ->] end;
    by eexists.
Qed.

Lemma encoder_request_int_mapping kw rng ls n :
  encoder_request kw rng ls (VInt n)
  = encoder_request kw rng ls (VDict [("size", VInt n)]).
Proof.
  unfold encoder_request. destruct (index_last ls) as [prev|e]; [|done].
  reflexivity.
Qed.

Lemma encoder_step_same_encoding kw rng ls v1 v2 :
  same_size_encoding v1 v2 ->
  encoder_step kw rng ls v1 = encoder_step kw rng ls v2.
Proof.
  intros [v|n|n]; [done| |]; unfold encoder_step;
    by rewrite encoder_request_int_mapping.
Qed.

Lemma setup_layers_same_encoding kw first mid1 mid2 last :
  Forall2 same_size_encoding mid1 mid2 ->
  setup_layers (with_layers kw (first :: mid1 ++ [last])) []
  = setup_layers (with_layers kw (first :: mid2 ++ [last])) [].
Proof.
  intros Hmid. unfold setup_layers, encoding_layers.
  cbn [with_layers opt_layers opt_rng mbind result_bind].
  change (first :: mid1 ++ [last]) with ((first :: mid1) ++ [last]).
  change (first :: mid2 ++ [last]) with ((first :: mid2) ++ [last]).
  rewrite !slice_init_snoc.
  destruct (build _) as [l_in|e]; [|done]. cbn [mbind result_bind].
  rewrite (foldM_ext _ (encoder_step (with_layers kw (first :: mid2 ++ [last]))
                          match opt_rng kw with
                          | Some r => if truthy r then r else RandomStreams
                          | None => RandomStreams
                          end) mid1 mid2).
  - destruct (foldM _ mid2 _) as [ls|e]; [|done]. cbn [mbind result_bind].
    unfold setup_decoder, decoder_request.
    destruct (if decode_from _ <=? 1 then _ else _) as [nin|e]; [|done].
    cbn [with_layers opt_layers mbind result_bind].
    by rewrite !index_last_snoc.
  - eapply Forall2_impl; [exact Hmid|].
    intros v1 v2 Hv ls. by apply (encoder_step_same_encoding kw).
Qed.

(** C8: a hidden-layer element written as the bare integer [n] and written as
    the mapping [{'size': n}] give layers of the same size, and two
    topologies that differ only in that encoding of their hidden-layer
    elements give the same sequence of layer sizes. *)
Theorem int_and_mapping_same_sizes (kw : options) (first last : pyobj)
        (mid1 mid2 : list pyobj) :
  Forall2 same_size_encoding mid1 mid2 ->
  (forall rng ls n,
      layer_sizes <$> encoder_step kw rng ls (VInt n)
      = layer_sizes <$> encoder_step kw rng ls (VDict [("size", VInt n)])) /\
  layer_sizes <$> setup_layers (with_layers kw (first :: mid1 ++ [last])) []
  = layer_sizes <$> setup_layers (with_layers kw (first :: mid2 ++ [last])) [].
Proof.
  intros Hmid. split.
  - intros rng ls n.
    by rewrite (encoder_step_same_encoding kw rng ls _ _ (int_as_mapping n)).
  - by rewrite (setup_layers_same_encoding kw first mid1 mid2 last Hmid).
Qed.

Lemma setup_vars_inputs kw :
  (setup_vars kw).2
  = if is_weighted kw
    then [var_x (setup_vars kw).1; var_weights (setup_vars kw).1]
    else [var_x (setup_vars kw).1].
Proof. reflexivity. Qed.

(** C9: in a constructed network the [weights] variable is one of the input
    variables exactly when the [weighted] option is true: the inputs are
    [[x, weights]] when it is, and [[x]] otherwise. *)
Theorem weights_input_iff_weighted (kw : options) (net : Network) :
  __init__ kw = Ok net ->
  (net_weights net ∈ net_inputs net <-> opt_weighted kw = Some true) /\
  net_inputs net
  = if is_weighted kw then [net_x net; net_weights net] else [net_x net].
Proof.
  unfold __init__. simpl. intros H.
  apply bind_Ok in H as (ls & _ & H). injection H as <-. simpl.
  split; [|done]. unfold is_weighted.
  destruct (opt_weighted kw) as [[|]|]; split; intros H; try done.
  - set_solver.
  - apply list_elem_of_singleton in H. discriminate.
  - apply list_elem_of_singleton in H. discriminate.
Qed.

(** C10: the decoder is requested with the last element of the [layers]
    option as its [size], whatever that element is: nothing is normalised and
    nothing is raised here, so the requested size is an integer only when the
    last element is a bare integer. *)
Theorem decoder_size_verbatim (kw : options) (specs : list pyobj) (v : pyobj)
        (ls : list Layer) :
  opt_layers kw = Some (specs ++ [v]) ->
  ls <> [] ->
  exists req,
    decoder_request kw ls = Ok req /\
    setup_decoder kw ls = build req ≫= (fun l => Ok (ls ++ [l])) /\
    req_kwargs req !! "size" = Some v /\
    ((exists n, req_kwargs req !! "size" = Some (VInt n)) <-> exists n, v = VInt n).
Proof.
  intros Hkw Hls. unfold setup_decoder, decoder_request. rewrite Hkw.
  destruct (index_last_Ok (layer_sizes ls)) as [n Hn].
  { by destruct ls. }
  rewrite Hn. clear Hn.
  destruct (decode_from kw <=? 1);
    cbn [mbind result_bind fmap result_fmap]; rewrite index_last_snoc;
    cbn [mbind result_bind];
    (eexists; split; [reflexivity|]; split; [reflexivity|];
     cbn [req_kwargs];
     rewrite lookup_insert_ne by done; rewrite lookup_insert_eq;
     split; [done|]; split; intros [m Hm]; exists m; congruence).
Qed.

(** ** The network error *)

Lemma same_shape_refl m : same_shape m m = true.
Proof. unfold same_shape. by apply bool_decide_eq_true. Qed.

Lemma shape_zip_with (f : Q -> Q -> Q) (m n : list (list Q)) :
  same_shape m n = true ->
  length <$> zip_with (zip_with f) m n = length <$> n.
Proof.
  unfold same_shape. intros H. apply bool_decide_eq_true in H.
  revert n H. induction m as [|r m IH]; intros [|r' n] H; try done.
  simpl in *. injection H as Hr Hm. f_equal; [|by apply IH].
  rewrite length_zip_with. lia.
Qed.

Lemma same_shape_trans m n k :
  same_shape m n = true -> same_shape n k = true -> same_shape m k = true.
Proof.
  unfold same_shape. intros H1 H2.
  apply bool_decide_eq_true in H1, H2. apply bool_decide_eq_true. congruence.
Qed.

Lemma same_shape_zip_with (f : Q -> Q -> Q) (k m n : list (list Q)) :
  same_shape m n = true -> same_shape k n = true ->
  same_shape k (zip_with (zip_with f) m n) = true.
Proof.
  intros Hmn Hk. unfold same_shape in *.
  apply bool_decide_eq_true in Hk. apply bool_decide_eq_true.
  rewrite shape_zip_with by (by unfold same_shape). done.
Qed.

Lemma total_proper (m n : list (list Q)) :
  Forall2 (Forall2 Qeq) m n -> (total m == total n)%Q /\ count m = count n.
Proof.
  unfold total, count. intros H.
  assert (Hc : Forall2 Qeq (concat m) (concat n)).
  { induction H as [|r r' m n Hr _ IH]; simpl; [constructor|].
    by apply Forall2_app. }
  split.
  - induction Hc as [|a b l l' Hab _ IH]; simpl; [reflexivity|].
    by rewrite Hab, IH.
  - by rewrite (Forall2_length _ _ _ Hc).
Qed.

Lemma squares_row (y x : list Q) :
  Forall2 Qeq (zip_with Qmult (zip_with Qminus y x) (zip_with Qminus y x))
          (zip_with (fun b a => ((b - a) ^ 2)%Q) y x).
Proof.
  revert x. induction y as [|b y IH]; intros [|a x]; simpl; try constructor.
  - simpl. ring.
  - apply IH.
Qed.

Lemma squares_matrix (y x : list (list Q)) :
  Forall2 (Forall2 Qeq)
          (zip_with (zip_with Qmult) (zip_with (zip_with Qminus) y x)
                    (zip_with (zip_with Qminus) y x))
          (squared_error y x).
Proof.
  unfold squared_error.
  revert x. induction y as [|r y IH]; intros [|r' x]; simpl; try constructor.
  - apply squares_row.
  - apply IH.
Qed.

Lemma weighted_row (w y x : list Q) :
  Forall2 Qeq
          (zip_with Qmult (zip_with Qmult w (zip_with Qminus y x))
                    (zip_with Qminus y x))
          (zip_with Qmult w (zip_with (fun b a => ((b - a) ^ 2)%Q) y x)).
Proof.
  revert y x. induction w as [|c w IH]; intros [|b y] [|a x]; simpl;
    try constructor.
  - simpl. ring.
  - apply IH.
Qed.

Lemma weighted_matrix (w y x : list (list Q)) :
  Forall2 (Forall2 Qeq)
          (zip_with (zip_with Qmult)
                    (zip_with (zip_with Qmult) w (zip_with (zip_with Qminus) y x))
                    (zip_with (zip_with Qminus) y x))
          (weighted_squared_error w y x).
Proof.
  unfold weighted_squared_error, squared_error.
  revert y x. induction w as [|c w IH]; intros [|b y] [|a x]; simpl;
    try constructor.
  - apply weighted_row.
  - apply IH.
Qed.

Lemma init_variables kw net :
  __init__ kw = Ok net ->
  net_kwargs net = kw /\ net_x net = Matrix "x" /\
  net_weights net = Matrix "weights" /\
  _graphs net = ∅ /\ _functions net = ∅.
Proof.
  unfold __init__. simpl. intros H.
  apply bind_Ok in H as (ls & _ & H). by injection H as <-.
Qed.

Lemma nonzero_true (q : Q) : ~ (q == 0)%Q -> nonzero q = true.
Proof.
  intros Hq. unfold nonzero. apply negb_true_iff.
  destruct (Qeq_bool q 0) eqn:E; [|done]. by apply Qeq_bool_iff in E.
Qed.

Lemma count_zip_with (f : Q -> Q -> Q) (m n : list (list Q)) :
  same_shape m n = true -> count (zip_with (zip_with f) m n) = count n.
Proof.
  unfold same_shape, count. intros H. apply bool_decide_eq_true in H.
  do 2 f_equal.
  revert n H. induction m as [|r m IH]; intros [|r' n] H; try done.
  simpl in *. injection H as Hr Hm.
  rewrite !length_app, length_zip_with, (IH n Hm). lia.
Qed.

Lemma count_nonzero (m : list (list Q)) : concat m <> [] -> nonzero (count m) = true.
Proof.
  intros Hm. apply nonzero_true. unfold count.
  destruct (concat m) as [|a l]; [done|]. simpl length.
  intros H. apply (Qeq_bool_iff _ _) in H. vm_compute in H. discriminate H.
Qed.

(** C3: on data [x], output [y] and weights [w] of one shape (not empty, and
    in weighted mode with weights that do not sum to 0), the error of a
    constructed network is [mean((y - x) ** 2)], and in weighted mode
    [sum(w * (y - x) ** 2) / sum(w)]; on [x = [[1,0],[0,1]]],
    [y = [[0,0],[0,0]]] it is 1/2 unweighted, and with [w = [[1,1],[0,0]]]
    it is 1/2 weighted as well. *)
Theorem error_formula (kw : options) (net : Network) (x y w : list (list Q)) :
  __init__ kw = Ok net ->
  same_shape y x = true ->
  same_shape w x = true ->
  concat x <> [] ->
  (is_weighted kw = true -> ~ (total w == 0)%Q) ->
  exists q,
    eval (feed x y w) (error net (Matrix "y")) = Some (TScalar q) /\
    (q == if is_weighted kw
          then total (weighted_squared_error w y x) / total w
          else total (squared_error y x) / count (squared_error y x))%Q /\
    (x = [[1; 0]; [0; 1]]%Q -> y = [[0; 0]; [0; 0]]%Q -> w = [[1; 1]; [0; 0]]%Q ->
     (q == 1 # 2)%Q).
Proof.
  intros Hinit Hyx Hwx Hx0 Hw0.
  apply init_variables in Hinit as (Hkw & Hx & Hw & _).
  unfold error. rewrite Hkw, Hx, Hw.
  pose proof (same_shape_zip_with Qminus _ _ _ Hyx Hwx) as Hwe.
  destruct (is_weighted kw) eqn:Hmode; simpl; rewrite Hyx; simpl.
  - rewrite Hwe. simpl.
    rewrite same_shape_trans with (n := x); cycle 1.
    { unfold same_shape. apply bool_decide_eq_true.
      by rewrite (shape_zip_with Qmult _ _ Hwe), (shape_zip_with Qminus _ _ Hyx). }
    { unfold same_shape. apply bool_decide_eq_true.
      by rewrite shape_zip_with. }
    simpl. rewrite (nonzero_true (total w)) by auto.
    eexists. split; [reflexivity|].
    destruct (total_proper _ _ (weighted_matrix w y x)) as [Ht _].
    split.
    + by rewrite Ht.
    + intros -> -> ->. reflexivity.
  - rewrite same_shape_refl. simpl.
    destruct (total_proper _ _ (squares_matrix y x)) as [Ht Hc].
    assert (Hcx : count (squared_error y x) = count x)
      by (by apply count_zip_with).
    rewrite Hc, Hcx, count_nonzero by done.
    eexists. split; [reflexivity|].
    split.
    + by rewrite Ht.
    + intros -> -> ->. reflexivity.
Qed.

(** ** The computation graph *)

Lemma layer_args_Ok net kwargs i outputs :
  length outputs = i -> exists args, layer_args net kwargs i outputs = Ok args.
Proof.
  intros Hlen. unfold layer_args.
  destruct (Z.eqb_spec (Z.of_nat i) 0) as [|Hi]; [by eexists|].
  destruct (Z.of_nat i =? Z.of_nat (length (net_layers net)) - 1); [by eexists|].
  destruct (index_last_Ok outputs) as [out ->]; [|simpl; by eexists].
  intros ->. simpl in Hlen. subst i. done.
Qed.

Lemma graph_step_Ok net kwargs outs mons upds i l :
  length outs = i ->
  exists inputs noise dropout,
    layer_args net kwargs i outs = Ok (inputs, noise, dropout) /\
    graph_step net kwargs (outs, mons, upds) (i, l)
    = Ok (outs ++ [(layer_output l inputs noise dropout).1.1],
          mons ++ (layer_output l inputs noise dropout).1.2,
          upds ++ (layer_output l inputs noise dropout).2).
Proof.
  intros Hlen.
  destruct (layer_args_Ok net kwargs i outs Hlen) as [[[inputs noise] dropout] Hargs].
  exists inputs, noise, dropout. split; [done|].
  unfold graph_step. rewrite Hargs. cbn [mbind result_bind].
  by destruct (layer_output l inputs noise dropout) as [[out mon] upd].
Qed.

(** The loop over the layers never raises, and appends one output per layer,
    in order. *)
Lemma graph_loop net kwargs ls off outs mons upds :
  length outs = off ->
  exists outs' mons' upds',
    foldM (graph_step net kwargs)
          (imap (fun i l => ((off + i)%nat, l)) ls) (outs, mons, upds)
    = Ok (outs ++ outs', mons', upds') /\
    Forall2 output_of ls outs'.
Proof.
  revert off outs mons upds.
  induction ls as [|l ls IH]; intros off outs mons upds Hlen.
  - exists [], mons, upds. rewrite app_nil_r. by split; [|constructor].
  - cbn [imap foldM].
    destruct (graph_step_Ok net kwargs outs mons upds (off + 0) l)
      as (inputs & noise & dropout & _ & ->); [lia|].
    cbn [mbind result_bind].
    set (out := (layer_output l inputs noise dropout).1.1).
    set (mon := (layer_output l inputs noise dropout).1.2).
    set (upd := (layer_output l inputs noise dropout).2).
    destruct (IH (S off) (outs ++ [out]) (mons ++ mon) (upds ++ upd))
      as (outs' & mons' & upds' & Hloop & Hall).
    { rewrite length_app. simpl. lia. }
    exists (out :: outs'), mons', upds'. split.
    + replace (outs ++ out :: outs') with ((outs ++ [out]) ++ outs')
        by (by rewrite <- app_assoc).
      rewrite <- Hloop. f_equal.
      apply imap_ext. intros i x _. simpl. f_equal. lia.
    + constructor; [|done]. by exists inputs, noise, dropout.
Qed.

Lemma graph_total net kwargs :
  exists outputs monitors updates,
    graph net kwargs = Ok (outputs, monitors, updates) /\
    Forall2 output_of (net_layers net) outputs.
Proof.
  destruct (graph_loop net kwargs (net_layers net) 0 [] [] [] eq_refl)
    as (outs & mons & upds & H & Hall).
  exists outs, mons, upds. split; [|done]. exact H.
Qed.

Lemma layer_args_decoder net kwargs pre dec prior :
  net_layers net = pre ++ [dec] -> pre <> [] ->
  layer_args net kwargs (length pre) prior
  = Ok (Group (slice_from (- decode_from (net_kwargs net)) prior),
        option_or_zero "hidden_noise" kwargs,
        option_or_zero "hidden_dropouts" kwargs).
Proof.
  intros Hls Hpre. unfold layer_args. rewrite Hls, length_app. simpl.
  destruct (Z.eqb_spec (Z.of_nat (length pre)) 0) as [H0|_].
  { destruct pre; [done | simpl in H0; lia]. }
  destruct (Z.eqb_spec (Z.of_nat (length pre)) (Z.of_nat (length pre + 1) - 1))
    as [_|Hne]; [done | lia].
Qed.

(** C4: in a network of at least two layers with [decode_from >= 1], the
    last layer is called with the list of the [decode_from] most recent
    outputs of the layers before it (all of them when there are fewer); with
    [decode_from = 2] and four layers these are the outputs of the layers at
    positions 1 and 2, the decoder itself being at position 3; they are the
    outputs at positions 2 and 3 when four layers come before the decoder. *)
Theorem decoder_inputs (net : Network) (kwargs : keywords) (pre : list Layer)
        (dec : Layer) :
  net_layers net = pre ++ [dec] ->
  pre <> [] ->
  1 <= decode_from (net_kwargs net) ->
  exists prior monitors updates inputs,
    graph net kwargs
    = Ok (prior ++ [(layer_output dec inputs
                       (option_or_zero "hidden_noise" kwargs)
                       (option_or_zero "hidden_dropouts" kwargs)).1.1],
          monitors, updates) /\
    Forall2 output_of pre prior /\
    layer_args net kwargs (length pre) prior
    = Ok (inputs, option_or_zero "hidden_noise" kwargs,
          option_or_zero "hidden_dropouts" kwargs) /\
    inputs
    = Group (drop (length prior - Z.to_nat (decode_from (net_kwargs net))) prior) /\
    (length pre = 3%nat -> decode_from (net_kwargs net) = 2 ->
     exists o0 o1 o2, prior = [o0; o1; o2] /\ inputs = Group [o1; o2]) /\
    (length pre = 4%nat -> decode_from (net_kwargs net) = 2 ->
     exists o0 o1 o2 o3, prior = [o0; o1; o2; o3] /\ inputs = Group [o2; o3]).
Proof.
  intros Hls Hpre Hk.
  destruct (graph_loop net kwargs pre 0 [] [] [] eq_refl)
    as (prior & mons & upds & Hloop & Hall).
  pose proof (Forall2_length _ _ _ Hall) as Hlen.
  destruct (graph_step_Ok net kwargs prior mons upds (length pre) dec)
    as (inputs & noise & dropout & Hargs & Hstep); [done|].
  rewrite (layer_args_decoder net kwargs pre dec prior Hls Hpre) in Hargs.
  injection Hargs as <- <- <-.
  eexists prior, _, _, _. split; [|split; [done|split; [|split; [|split]]]].
  - unfold graph, enumerate. rewrite Hls, imap_app, foldM_app.
    simpl in Hloop. rewrite Hloop. cbn [mbind result_bind imap foldM].
    replace (length pre + 0)%nat with (length pre) by lia.
    rewrite Hstep. reflexivity.
  - by apply (layer_args_decoder net kwargs pre dec).
  - by rewrite slice_from_neg.
  - intros H3 H2. rewrite H2. rewrite H3 in Hlen.
    destruct prior as [|o0 [|o1 [|o2 [|o3 prior]]]]; try discriminate.
    by exists o0, o1, o2.
  - intros H4 H2. rewrite H2. rewrite H4 in Hlen.
    destruct prior as [|o0 [|o1 [|o2 [|o3 [|o4 prior]]]]]; try discriminate.
    by exists o0, o1, o2, o3.
Qed.

(** ** Loading parameters *)

Lemma set_values_other ps vs (params : gmap handle ndarray) (h : handle) :
  h ∉ ps -> set_values ps vs params !! h = params !! h.
Proof.
  unfold set_values. revert vs params.
  induction ps as [|p ps IH]; intros [|v vs] params Hh; simpl; try done.
  rewrite IH by set_solver. apply lookup_insert_ne. set_solver.
Qed.

Lemma load_layers_app saved pre post (params : gmap handle ndarray) :
  load_layers saved (pre ++ post) params
  = match load_layers saved pre params with
    | (Ok _, params') => load_layers saved post params'
    | (Raise e, params') => (Raise e, params')
    end.
Proof.
  revert params. induction pre as [|l pre IH]; intros params; simpl; [done|].
  destruct (rec_values saved !! _); [apply IH | done].
Qed.

(** Layers whose keys are all in the record are loaded without error, and
    only their own parameters are written. *)
Lemma load_layers_present saved pre (params : gmap handle ndarray) :
  Forall (fun l => is_Some (rec_values saved !! (layer_name l +:+ "-values"))) pre ->
  exists params',
    load_layers saved pre params = (Ok (), params') /\
    forall h, h ∉ mjoin (layer_params <$> pre) -> params' !! h = params !! h.
Proof.
  intros Hpre. revert params.
  induction Hpre as [|l pre [vs Hl] _ IH]; intros params; simpl.
  - by exists params.
  - rewrite Hl.
    destruct (IH (set_values (layer_params l) vs params)) as (params' & -> & Hother).
    exists params'. split; [done|].
    intros h Hh. cbn [fmap list_fmap mjoin list_join] in Hh.
    apply not_elem_of_app in Hh as [Hl' Hpre'].
    rewrite Hother by done. by apply set_values_other.
Qed.

Lemma load_params_present saved net (params : gmap handle ndarray) :
  Forall (fun l => is_Some (rec_values saved !! (layer_name l +:+ "-values")))
         (net_layers net) ->
  exists params', load_params saved net params = (Ok (), params').
Proof.
  intros H. destruct (load_layers_present saved _ params H) as (params' & Hl & _).
  by exists params'.
Qed.

(** C1: when a layer's name has no ['{name}-values'] key in the record,
    [load_params] raises [KeyError] for the first such layer: the layers
    before it have been loaded, and no other parameter has been written. *)
Theorem load_params_missing_key (saved : record) (net : Network)
        (params : gmap handle ndarray) (pre post : list Layer) (l : Layer) :
  net_layers net = pre ++ l :: post ->
  Forall (fun l' => is_Some (rec_values saved !! (layer_name l' +:+ "-values"))) pre ->
  rec_values saved !! (layer_name l +:+ "-values") = None ->
  exists params',
    load_params saved net params
    = (Raise (KeyError (layer_name l +:+ "-values")), params') /\
    load_layers saved pre params = (Ok (), params') /\
    forall h, h ∉ mjoin (layer_params <$> pre) -> params' !! h = params !! h.
Proof.
  intros Hls Hpre Hl.
  destruct (load_layers_present saved pre params Hpre) as (params' & Hload & Hother).
  exists params'. split; [|done].
  unfold load_params. rewrite Hls, load_layers_app, Hload. simpl.
  by rewrite Hl.
Qed.

(** ** Rendering of option mappings *)

Lemma append_nil (s : string) : EmptyString +:+ s = s.
Proof. reflexivity. Qed.

Lemma append_cons (c : ascii) (s t : string) :
  String c s +:+ t = String c (s +:+ t).
Proof. reflexivity. Qed.













(** ** The caches *)

Lemma hash_same_layers net net' kwargs :
  net_layers net' = net_layers net -> _hash net' kwargs = _hash net kwargs.
Proof. intros H. unfold _hash, hash_input. by rewrite H. Qed.

Lemma build_graph_hit kwargs net h t :
  _graphs net !! _hash net kwargs = Some t ->
  build_graph kwargs (net, h) = (Ok t, (net, h)).
Proof. intros H. unfold build_graph. by rewrite H. Qed.

Lemma build_graph_miss kwargs net h :
  _graphs net !! _hash net kwargs = None ->
  exists outputs monitors updates,
    graph net kwargs = Ok (outputs, monitors, updates) /\
    build_graph kwargs (net, h)
    = (Ok (3 + next h)%nat,
       (set_graphs (<[_hash net kwargs := (3 + next h)%nat]> (_graphs net)) net,
        graph_cells outputs monitors updates h)).
Proof.
  intros H. destruct (graph_total net kwargs) as (outs & mons & upds & Hg & _).
  exists outs, mons, upds. split; [done|].
  unfold build_graph. by rewrite H, Hg.
Qed.

Lemma graph_cells_read outputs monitors updates h :
  unpack (graph_cells outputs monitors updates h) (3 + next h)%nat
  = Ok (next h, (1 + next h)%nat, (2 + next h)%nat) /\
  read_outputs (graph_cells outputs monitors updates h) (next h) = Ok outputs /\
  read_monitors (graph_cells outputs monitors updates h) (1 + next h)%nat
  = Ok monitors /\
  read_updates (graph_cells outputs monitors updates h) (2 + next h)%nat
  = Ok updates.
Proof.
  unfold unpack, read_outputs, read_monitors, read_updates, graph_cells.
  cbn [cells].
  repeat split; by repeat (rewrite lookup_insert_eq || rewrite lookup_insert_ne by lia).
Qed.

(** *** Well-formed caches are kept *)

Lemma same_kind_refl c : same_kind c c.
Proof. by destruct c. Qed.

Lemma heap_le_refl h : heap_le h h.
Proof. intros l c H. exists c. split; [done | apply same_kind_refl]. Qed.

Lemma is_graph_le h h' t : heap_le h h' -> is_graph h t -> is_graph h' t.
Proof.
  intros Hle (o & m & u & outs & mons & upds & Ht & Ho & Hm & Hu).
  apply Hle in Ht as ([] & Ht & Hk); try done. destruct Hk as (<- & <- & <-).
  apply Hle in Ho as ([] & Ho & Hk); try done.
  apply Hle in Hm as ([] & Hm & Hk'); try done.
  apply Hle in Hu as ([] & Hu & Hk''); try done.
  by eexists _, _, _, _, _, _.
Qed.

Lemma is_function_le h h' f : heap_le h h' -> is_function h f -> is_function h' f.
Proof.
  intros Hle (i & o & u & Hf).
  apply Hle in Hf as ([] & Hf & Hk); try done. by eexists _, _, _.
Qed.

Lemma alloc_le c h :
  (forall l c, cells h !! l = Some c -> (l < next h)%nat) ->
  heap_le h (alloc c h).2.
Proof.
  intros Hb l c' Hl. exists c'. split; [|apply same_kind_refl].
  cbn [alloc snd cells]. rewrite lookup_insert_ne; [done|].
  apply Hb in Hl. lia.
Qed.

Lemma alloc_bounded c h :
  (forall l c, cells h !! l = Some c -> (l < next h)%nat) ->
  forall l c', cells (alloc c h).2 !! l = Some c' -> (l < next (alloc c h).2)%nat.
Proof.
  intros Hb l c'. cbn [alloc snd cells next].
  rewrite lookup_insert_Some. intros [[<- _]|[_ Hl]]; [lia|].
  apply Hb in Hl. lia.
Qed.

Lemma separate_insert (cache : gmap string loc) k l :
  separate cache -> (forall k', cache !! k' <> Some l) ->
  separate (<[k := l]> cache).
Proof.
  intros Hs Hfresh k1 k2 l'.
  rewrite !lookup_insert_Some.
  intros [[<- <-]|[Hne1 H1]] [[<- Heq]|[Hne2 H2]]; try done.
  - subst. by destruct (Hfresh k2).
  - subst. by destruct (Hfresh k1).
  - by apply (Hs k1 k2 l').
Qed.

Lemma heap_le_trans h1 h2 h3 : heap_le h1 h2 -> heap_le h2 h3 -> heap_le h1 h3.
Proof.
  intros H12 H23 l c Hl.
  apply H12 in Hl as (c2 & Hl2 & Hk2).
  apply H23 in Hl2 as (c3 & Hl3 & Hk3).
  exists c3. split; [done|].
  destruct c, c2; try done; destruct c3; try done.
  destruct Hk2 as (-> & -> & ->). done.
Qed.

Lemma graph_cells_le outs mons upds h :
  (forall l c, cells h !! l = Some c -> (l < next h)%nat) ->
  heap_le h (graph_cells outs mons upds h) /\
  (forall l c, cells (graph_cells outs mons upds h) !! l = Some c ->
               (l < next (graph_cells outs mons upds h))%nat) /\
  is_graph (graph_cells outs mons upds h) (3 + next h)%nat.
Proof.
  intros Hb. split; [|split].
  - intros l c Hl. exists c. split; [|apply same_kind_refl].
    pose proof (Hb _ _ Hl). unfold graph_cells. cbn [cells].
    by rewrite !lookup_insert_ne by lia.
  - intros l c. unfold graph_cells. cbn [cells next].
    rewrite !lookup_insert_Some.
    intros [[<- _]|[_ [[<- _]|[_ [[<- _]|[_ [[<- _]|[_ Hl]]]]]]]]; try lia.
    apply Hb in Hl. lia.
  - destruct (graph_cells_read outs mons upds h) as (Ht & Ho & Hm & Hu).
    unfold unpack in Ht. unfold read_outputs in Ho. unfold read_monitors in Hm.
    unfold read_updates in Hu.
    exists (next h), (1 + next h)%nat, (2 + next h)%nat, outs, mons, upds.
    unfold graph_cells in *. cbn [cells] in *.
    repeat split;
      by repeat (rewrite lookup_insert_eq || rewrite lookup_insert_ne by lia).
Qed.

(** [build_graph] returns a graph tuple, caches it under the key of its
    options, and keeps the caches well formed. *)
Lemma build_graph_ok kwargs net h :
  cache_ok (net, h) ->
  exists t net' h',
    build_graph kwargs (net, h) = (Ok t, (net', h')) /\
    cache_ok (net', h') /\
    heap_le h h' /\
    net_layers net' = net_layers net /\
    _graphs net' !! _hash net kwargs = Some t /\
    _graphs net ⊆ _graphs net' /\
    _functions net' = _functions net.
Proof.
  intros [Hb Hg Hf Hgs Hfs Hfg]. cbn [fst snd] in *.
  destruct (_graphs net !! _hash net kwargs) as [t|] eqn:Hkey.
  - exists t, net, h. rewrite (build_graph_hit _ _ _ _ Hkey).
    repeat split; try done. apply heap_le_refl.
  - destruct (build_graph_miss kwargs net h Hkey)
      as (outs & mons & upds & _ & ->).
    destruct (graph_cells_le outs mons upds h Hb) as (Hle & Hb' & Hnew).
    eexists _, _, _. split; [reflexivity|].
    split; [|split; [done|split; [done|split; [|split; [|done]]]]].
    + split; cbn [fst snd _graphs _functions set_graphs].
      * done.
      * intros k t. rewrite lookup_insert_Some.
        intros [[_ <-]|[_ Hk]]; [done|]. eapply is_graph_le; eauto.
      * intros k f Hk. eapply is_function_le; eauto.
      * apply separate_insert; [done|].
        intros k' Hk'. apply Hg in Hk' as (o & m & u & _ & _ & _ & Ht & _).
        apply Hb in Ht. lia.
      * done.
      * intros k f Hk. apply Hfg in Hk as [t Hk].
        exists t. eapply lookup_weaken; [exact Hk|]. by apply insert_subseteq.
    + cbn [_graphs set_graphs]. by rewrite lookup_insert_eq.
    + cbn [_graphs set_graphs]. by apply insert_subseteq.
Qed.

Lemma theano_function_inv inputs outputs updates c :
  theano_function inputs outputs updates = Ok c ->
  c = CFunction inputs outputs updates.
Proof.
  unfold theano_function.
  destruct inputs as [|input inputs]; [by intros [= <-]|].
  destruct outputs; [|by intros [= <-]].
  destruct updates; [done | by intros [= <-]].
Qed.


(** Whether it returns or raises, [feed_forward] keeps the caches well
    formed; the function it returns is the one cached under the key. *)
Lemma feed_forward_ok kwargs net h :
  cache_ok (net, h) ->
  exists r net' h',
    feed_forward kwargs (net, h) = (r, (net', h')) /\
    cache_ok (net', h') /\
    heap_le h h' /\
    net_layers net' = net_layers net /\
    is_Some (_graphs net' !! _hash net kwargs) /\
    _graphs net ⊆ _graphs net' /\
    _functions net ⊆ _functions net' /\
    (forall f, r = Ok f -> _functions net' !! _hash net kwargs = Some f).
Proof.
  intros Hok. pose proof Hok as [Hb Hg Hf Hgs Hfs Hfg]. cbn [fst snd] in *.
  unfold feed_forward. cbn [fst].
  destruct (_functions net !! _hash net kwargs) as [f|] eqn:Hkey.
  - exists (Ok f), net, h. split; [done|]. split; [done|].
    split; [apply heap_le_refl|]. split; [done|]. split; [by eapply Hfg|].
    split; [done|]. split; [done|]. by intros f' [= <-].
  - destruct (build_graph_ok kwargs net h Hok)
      as (t & net1 & h1 & -> & Hok1 & Hle1 & Hls1 & Ht & Hsub & Hfun).
    pose proof Hok1 as [Hb1 Hg1 Hf1 Hgs1 Hfs1 Hfg1]. cbn [fst snd] in *.
    destruct (Hg1 _ _ Ht) as (o & m & u & outs & mons & upds & Hct & Hco & Hcm & Hcu).
    unfold unpack, read_outputs, read_updates. rewrite Hct.
    cbn [mbind result_bind]. rewrite Hco. cbn [mbind result_bind]. rewrite Hcu.
    cbn [mbind result_bind].
    destruct (theano_function [net_x net1] outs upds) as [c|e] eqn:Hcompile.
    + apply theano_function_inv in Hcompile as ->.
      pose proof (alloc_le (CFunction [net_x net1] outs upds) h1 Hb1) as Hle2.
      pose proof (alloc_bounded (CFunction [net_x net1] outs upds) h1 Hb1) as Hb2.
      exists (Ok (next h1)). eexists _, _. split; [reflexivity|].
      cbn [alloc snd] in Hle2, Hb2.
      split; [|split; [by eapply heap_le_trans|split; [done|split; [by eexists|split; [done|split]]]]].
      * split; cbn [fst snd _graphs _functions set_functions].
        -- done.
        -- intros k t' Hk. eapply is_graph_le; eauto.
        -- intros k f. rewrite lookup_insert_Some.
           intros [[_ <-]|[_ Hk]].
           ++ eexists _, _, _. cbn [cells]. by rewrite lookup_insert_eq.
           ++ eapply is_function_le; eauto.
        -- done.
        -- apply separate_insert; [done|].
           intros k' Hk'. apply Hf1 in Hk' as (i' & o' & u' & Hc).
           apply Hb1 in Hc. lia.
        -- intros k f. rewrite lookup_insert_Some.
           intros [[<- _]|[_ Hk]]; [by eexists|]. by eapply Hfg1.
      * cbn [_functions set_functions]. rewrite Hfun. by apply insert_subseteq.
      * intros f [= <-]. cbn [_functions set_functions]. by rewrite lookup_insert_eq.
    + exists (Raise e), net1, h1. split; [done|]. split; [done|].
      split; [done|]. split; [done|]. split; [by eexists|]. split; [done|].
      split; [by rewrite Hfun|]. by intros f [=].
Qed.

Lemma loss_ok kwargs net h :
  cache_ok (net, h) ->
  exists r net' h',
    loss kwargs (net, h) = (r, (net', h')) /\
    cache_ok (net', h') /\
    heap_le h h' /\
    net_layers net' = net_layers net /\
    _graphs net ⊆ _graphs net' /\
    _functions net' = _functions net.
Proof.
  intros Hok. unfold loss.
  destruct (build_graph_ok kwargs net h Hok)
    as (t & net1 & h1 & -> & Hok1 & Hle1 & Hls1 & Ht & Hsub & Hfun).
  pose proof Hok1 as [Hb1 Hg1 Hf1 Hgs1 Hfs1 Hfg1]. cbn [fst snd] in *.
  destruct (Hg1 _ _ Ht) as (o & m & u & outs & mons & upds & Hct & Hco & Hcm & Hcu).
  unfold unpack, read_outputs, read_monitors. rewrite Hct.
  cbn [mbind result_bind]. rewrite Hco. cbn [mbind result_bind].
  destruct (index_last outs) as [last|e]; cbn [mbind result_bind].
  - rewrite Hcm. cbn [mbind result_bind].
    eexists _, _, _. split; [reflexivity|].
    assert (Hle2 : heap_le h1 (store_cell m
              (CMonitors ((("err", error net1 last) :: mons) ++ extra_monitors outs)) h1)).
    { intros l c Hl. cbn [store_cell cells].
      destruct (decide (m = l)) as [<-|Hne].
      - rewrite lookup_insert_eq. eexists. split; [done|].
        rewrite Hcm in Hl. by injection Hl as <-.
      - rewrite lookup_insert_ne by done. exists c. split; [done|].
        apply same_kind_refl. }
    split; [|split; [by eapply heap_le_trans|done]].
    split; cbn [fst snd].
    + intros l c. cbn [store_cell cells next]. rewrite lookup_insert_Some.
      intros [[<- _]|[_ Hl]]; eauto.
    + intros k t' Hk. eapply is_graph_le; eauto.
    + intros k f Hk. eapply is_function_le; eauto.
    + done.
    + done.
    + done.
  - eexists _, _, _. split; [reflexivity|]. done.
Qed.

(** A network fresh from its constructor has well-formed caches. *)
Lemma init_cache_ok kw net : __init__ kw = Ok net -> cache_ok (net, empty_heap).
Proof.
  intros (_ & _ & _ & Hg & Hf)%init_variables.
  split; cbn [fst snd cells empty_heap]; try rewrite Hg; try rewrite Hf;
    intros *; rewrite ?lookup_empty; discriminate.
Qed.

(** The cached graph after [loss]: the tuple is the same object, its monitors
    list has grown at the head. *)
Lemma loss_prepends_err kwargs net h t outputs last monitors :
  cache_ok (net, h) ->
  _graphs net !! _hash net kwargs = Some t ->
  graph_outputs h t = Ok (outputs ++ [last]) ->
  graph_monitors h t = Ok monitors ->
  exists r h',
    loss kwargs (net, h) = (Ok r, (net, h')) /\
    build_graph kwargs (net, h') = (Ok t, (net, h')) /\
    graph_outputs h' t = Ok (outputs ++ [last]) /\
    graph_monitors h' t = Ok (("err", error net last) :: monitors).
Proof.
  intros Hok Hkey Houts Hmons.
  pose proof Hok as [Hb Hg Hf Hgs Hfs Hfg]. cbn [fst snd] in *.
  destruct (Hg _ _ Hkey) as (o & m & u & outs & mons & upds & Hct & Hco & Hcm & Hcu).
  unfold graph_outputs, graph_monitors, unpack, read_monitors, read_outputs in *.
  rewrite Hct in Hmons, Houts. cbn [mbind result_bind] in Hmons, Houts.
  rewrite Hcm in Hmons. rewrite Hco in Houts.
  injection Hmons as <-. injection Houts as ->.
  unfold loss. rewrite (build_graph_hit _ _ _ _ Hkey).
  unfold unpack, read_outputs, read_monitors. rewrite Hct.
  cbn [mbind result_bind]. rewrite Hco. cbn [mbind result_bind].
  rewrite index_last_snoc. cbn [mbind result_bind].
  rewrite Hcm. cbn [mbind result_bind].
  assert (m <> t) by (intros ->; congruence).
  assert (m <> o) by (intros ->; congruence).
  eexists _, _. split; [reflexivity|]. split; [by apply build_graph_hit|].
  cbn [store_cell cells]. rewrite !lookup_insert_ne by done. rewrite Hct.
  cbn [mbind result_bind]. rewrite lookup_insert_ne by done. rewrite Hco.
  split; [done|]. rewrite lookup_insert_eq.
  unfold extra_monitors. by rewrite app_nil_r.
Qed.

(** * Further properties *)

(** ** Saving and loading *)

Lemma length_append (s t : string) :
  String.length (s +:+ t) = (String.length s + String.length t)%nat.
Proof.
  induction s as [|c s IH]; [done|]. rewrite append_cons. simpl. by rewrite IH.
Qed.

Lemma append_inj_r (s1 s2 t : string) : s1 +:+ t = s2 +:+ t -> s1 = s2.
Proof.
  revert s2. induction s1 as [|c s1 IH]; intros [|d s2] H; [done| | |].
  - apply (f_equal String.length) in H.
    rewrite append_nil, append_cons in H. simpl in H.
    rewrite length_append in H. lia.
  - apply (f_equal String.length) in H.
    rewrite append_nil, append_cons in H. simpl in H.
    rewrite length_append in H. lia.
  - rewrite !append_cons in H. injection H as -> H. f_equal. by apply IH.
Qed.

(** The entry [save] writes for a layer, when no other layer has its name. *)
Lemma save_lookup klass net (values : gmap handle ndarray) l :
  NoDup (layer_name <$> net_layers net) ->
  l ∈ net_layers net ->
  rec_values (save klass net values) !! (layer_name l +:+ "-values")
  = Some ((fun p => default [] (values !! p)) <$> layer_params l).
Proof.
  unfold save. cbn [rec_values]. generalize (net_layers net). clear net.
  intros ls. induction ls as [|l' ls IH] using rev_ind; intros Hnames Hl.
  - by apply elem_of_nil in Hl.
  - rewrite foldl_app. cbn [foldl].
    rewrite fmap_app in Hnames. apply NoDup_app in Hnames as (Hls & Hfresh & _).
    apply elem_of_app in Hl as [Hl|Hl].
    + rewrite lookup_insert_ne; [by apply IH|].
      intros Heq. apply append_inj_r in Heq.
      apply (Hfresh (layer_name l)).
      * apply list_elem_of_fmap. by exists l.
      * rewrite <- Heq. by apply list_elem_of_singleton.
    + apply list_elem_of_singleton in Hl as ->. by rewrite lookup_insert_eq.
Qed.

Lemma set_values_fmap ps (value : handle -> ndarray)
      (store : gmap handle ndarray) p :
  p ∈ ps -> set_values ps (value <$> ps) store !! p = Some (value p).
Proof.
  unfold set_values. revert store.
  induction ps as [|p0 ps IH]; intros store Hp; [by apply elem_of_nil in Hp|].
  cbn [fmap list_fmap zip zip_with foldl fst snd].
  destruct (decide (p ∈ ps)) as [Hin|Hout]; [by apply IH|].
  apply elem_of_cons in Hp as [->|Hp]; [|done].
  pose proof (set_values_other ps (value <$> ps) (<[p0 := value p0]> store) p0 Hout)
    as Hother.
  unfold set_values in Hother. by rewrite Hother, lookup_insert_eq.
Qed.

Lemma load_layers_restore saved ls (value : handle -> ndarray)
      (store : gmap handle ndarray) :
  (forall l, l ∈ ls ->
     rec_values saved !! (layer_name l +:+ "-values")
     = Some (value <$> layer_params l)) ->
  exists store',
    load_layers saved ls store = (Ok (), store') /\
    (forall p, p ∈ mjoin (layer_params <$> ls) -> store' !! p = Some (value p)) /\
    (forall p, p ∉ mjoin (layer_params <$> ls) -> store' !! p = store !! p).
Proof.
  revert store. induction ls as [|l ls IH]; intros store Hsaved.
  - exists store. split; [done|]. split; [|done].
    intros p Hp. by apply elem_of_nil in Hp.
  - cbn [load_layers]. rewrite (Hsaved l) by (apply elem_of_cons; by left).
    destruct (IH (set_values (layer_params l) (value <$> layer_params l) store))
      as (store' & -> & Hin & Hout).
    { intros l' Hl'. apply Hsaved. apply elem_of_cons. by right. }
    exists store'. split; [done|].
    cbn [fmap list_fmap mjoin list_join].
    split; intros p Hp.
    + destruct (decide (p ∈ mjoin (layer_params <$> ls))) as [Hrest|Hrest];
        [by apply Hin|].
      rewrite Hout by done. apply set_values_fmap.
      apply elem_of_app in Hp as [Hp|Hp]; done.
    + apply not_elem_of_app in Hp as [Hl Hrest].
      rewrite Hout by done. by apply set_values_other.
Qed.

(** X1: when the layers of a network have different names, loading what
    [save] has written gives every parameter of the network its saved value,
    whatever it held before, and writes nothing else. *)
Theorem save_load_params (klass : string) (net : Network)
        (values store : gmap handle ndarray) :
  NoDup (layer_name <$> net_layers net) ->
  exists store',
    load_params (save klass net values) net store = (Ok (), store') /\
    (forall p, p ∈ params net -> store' !! p = Some (default [] (values !! p))) /\
    (forall p, p ∉ params net -> store' !! p = store !! p).
Proof.
  intros Hnames. unfold load_params, params.
  apply load_layers_restore. intros l Hl. by apply save_lookup.
Qed.

(** X2: [load_params] reads only the entries named after the current layers:
    two records that agree on them load alike, so entries of layers that are
    gone are passed over without a word. *)
Theorem load_params_only_reads_layers (saved saved' : record) (net : Network)
        (store : gmap handle ndarray) :
  (forall l, l ∈ net_layers net ->
     rec_values saved !! (layer_name l +:+ "-values")
     = rec_values saved' !! (layer_name l +:+ "-values")) ->
  load_params saved net store = load_params saved' net store.
Proof.
  unfold load_params. generalize (net_layers net). intros ls. revert store.
  induction ls as [|l ls IH]; intros store Hsame; [done|].
  cbn [load_layers]. rewrite (Hsame l) by (apply elem_of_cons; by left).
  destruct (rec_values saved' !! _); [|done].
  apply IH. intros l' Hl'. apply Hsame. apply elem_of_cons. by right.
Qed.

(** X3: the values of a layer are paired with its parameters by [zip]: a
    parameter that has a value at its position in the record takes it, and
    one beyond the end of a shorter record keeps what it held; values beyond
    the last parameter are dropped.  Nothing is raised in either case. *)
Theorem set_values_zip (ps : list handle) (vs : list ndarray)
        (store : gmap handle ndarray) (i : nat) (p : handle) :
  NoDup ps ->
  ps !! i = Some p ->
  set_values ps vs store !! p
  = match vs !! i with
    | Some v => Some v
    | None => store !! p
    end.
Proof.
  unfold set_values. revert vs store i.
  induction ps as [|p0 ps IH]; intros vs store i Hnodup Hi; [done|].
  apply NoDup_cons in Hnodup as [Hfresh Hnodup].
  destruct vs as [|v0 vs]; [by destruct i|].
  cbn [zip zip_with foldl fst snd].
  destruct i as [|i]; simpl in Hi.
  - injection Hi as ->.
    pose proof (set_values_other ps vs (<[p := v0]> store) p Hfresh) as Hother.
    unfold set_values in Hother. by rewrite Hother, lookup_insert_eq.
  - rewrite (IH vs _ i Hnodup Hi). simpl.
    destruct (vs !! i); [done|].
    apply lookup_insert_ne. intros ->. apply Hfresh.
    by eapply list_elem_of_lookup_2.
Qed.

(** ** Finding a parameter *)

Lemma find_in_position (ls : list Layer) (off i : nat) (l : Layer) (param : ref) :
  ls !! i = Some l ->
  find_in (imap (fun j l => ((off + j)%nat, l)) ls)
          (RefInt (Z.of_nat (off + i))) param
  = layer_find l param.
Proof.
  revert off i. induction ls as [|l0 ls IH]; intros off i Hi; [done|].
  cbn [imap find_in ref_matches]. destruct i as [|i]; simpl in Hi.
  - injection Hi as ->. by rewrite Z.eqb_refl.
  - destruct (Z.eqb_spec (Z.of_nat (off + S i)) (Z.of_nat (off + 0))); [lia|].
    replace (off + S i)%nat with (S off + i)%nat by lia.
    rewrite <- (IH (S off) i Hi). f_equal.
    apply imap_ext. intros j x _. simpl. f_equal. lia.
Qed.

Lemma find_in_out_of_range (ls : list Layer) (off : nat) (z : Z) (param : ref) :
  z < Z.of_nat off \/ Z.of_nat (off + length ls) <= z ->
  find_in (imap (fun j l => ((off + j)%nat, l)) ls) (RefInt z) param
  = Raise (KeyError (pretty z)).
Proof.
  revert off. induction ls as [|l0 ls IH]; intros off Hz; [done|].
  cbn [imap find_in ref_matches]. simpl length in Hz.
  destruct (Z.eqb_spec z (Z.of_nat (off + 0))); [lia|].
  rewrite <- (IH (S off)) by lia. f_equal.
  apply imap_ext. intros j x _. simpl. f_equal. lia.
Qed.

Lemma find_in_name (items : list (nat * Layer)) (s : string) (param : ref) :
  (Forall (fun l => layer_name l <> s) (snd <$> items) ->
   find_in items (RefStr s) param = Raise (KeyError s)) /\
  (forall pre l post,
     snd <$> items = pre ++ l :: post ->
     Forall (fun l' => layer_name l' <> s) pre ->
     layer_name l = s ->
     find_in items (RefStr s) param = layer_find l param).
Proof.
  induction items as [|[i l0] items [IHnone IHsome]]; split.
  - done.
  - intros pre l post H. by destruct pre.
  - cbn [fmap list_fmap snd find_in ref_matches]. intros Hall.
    apply Forall_cons in Hall as [Hl0 Hall].
    destruct (String.eqb_spec s (layer_name l0)) as [->|_]; [done|].
    by apply IHnone.
  - intros pre l post Hitems Hpre Hl.
    cbn [fmap list_fmap snd find_in ref_matches] in *.
    destruct pre as [|l1 pre]; simpl in Hitems; injection Hitems as -> Hitems.
    + by rewrite Hl, String.eqb_refl.
    + apply Forall_cons in Hpre as [Hl1 Hpre].
      destruct (String.eqb_spec s (layer_name l1)) as [->|_]; [done|].
      by eapply IHsome.
Qed.

Lemma snd_imap {A : Type} (g : nat -> nat) (l : list A) :
  snd <$> imap (fun i a => (g i, a)) l = l.
Proof.
  revert g. induction l as [|a l IH]; intros g; [done|].
  cbn [imap fmap list_fmap snd]. f_equal. apply (IH (g ∘ S)).
Qed.

Lemma snd_enumerate {A : Type} (l : list A) : snd <$> enumerate l = l.
Proof. exact (snd_imap (fun i => i) l). Qed.

(** X4: a layer is found by its position counted from 0, and only so: a
    position past the last layer, or a negative one, raises [KeyError]
    (positions are not Python indices, -1 is not the last layer). *)
Theorem find_by_position (net : Network) (param : ref) :
  (forall i l, net_layers net !! i = Some l ->
     find net (RefInt (Z.of_nat i)) param = layer_find l param) /\
  (forall z, z < 0 \/ Z.of_nat (length (net_layers net)) <= z ->
     find net (RefInt z) param = Raise (KeyError (pretty z))).
Proof.
  unfold find, enumerate. split.
  - intros i l Hi. exact (find_in_position (net_layers net) 0 i l param Hi).
  - intros z Hz.
    exact (find_in_out_of_range (net_layers net) 0 z param Hz).
Qed.

(** X5: a layer is found by its name; among layers of one name it is the
    first that answers, and a name no layer has raises [KeyError]. *)
Theorem find_by_name (net : Network) (s : string) (param : ref) :
  (forall pre l post,
     net_layers net = pre ++ l :: post ->
     Forall (fun l' => layer_name l' <> s) pre ->
     layer_name l = s ->
     find net (RefStr s) param = layer_find l param) /\
  (Forall (fun l => layer_name l <> s) (net_layers net) ->
   find net (RefStr s) param = Raise (KeyError s)).
Proof.
  unfold find.
  destruct (find_in_name (enumerate (net_layers net)) s param) as [Hnone Hsome].
  rewrite snd_enumerate in Hnone, Hsome. split; [|done].
  intros pre l post Hls. by apply (Hsome pre l post).
Qed.

(** ** The graph, layer by layer *)

Lemma layer_args_first net kwargs outputs :
  layer_args net kwargs 0 outputs
  = Ok (Single (net_x net), option_or_zero "input_noise" kwargs,
        option_or_zero "input_dropouts" kwargs).
Proof. reflexivity. Qed.

Lemma layer_args_middle net kwargs i outs prev :
  (1 <= i)%nat -> (i + 1 < length (net_layers net))%nat ->
  layer_args net kwargs i (outs ++ [prev]) = Ok (Single prev, PyInt 0, PyInt 0).
Proof.
  intros H1 H2. unfold layer_args.
  destruct (Z.eqb_spec (Z.of_nat i) 0); [lia|].
  destruct (Z.eqb_spec (Z.of_nat i) (Z.of_nat (length (net_layers net)) - 1));
    [lia|].
  by rewrite index_last_snoc.
Qed.

Lemma graph_step_eq net kwargs outs mons upds i l inputs noise dropout :
  layer_args net kwargs i outs = Ok (inputs, noise, dropout) ->
  graph_step net kwargs (outs, mons, upds) (i, l)
  = Ok (outs ++ [(layer_output l inputs noise dropout).1.1],
        mons ++ (layer_output l inputs noise dropout).1.2,
        upds ++ (layer_output l inputs noise dropout).2).
Proof.
  intros Hargs. unfold graph_step. rewrite Hargs. cbn [mbind result_bind].
  by destruct (layer_output l inputs noise dropout) as [[out mon] upd].
Qed.

(** The layers between the first and the last extend the lists by their
    [chain]. *)
Lemma graph_middle net kwargs mids off outs prev mons upds :
  (1 <= off)%nat -> (off + length mids < length (net_layers net))%nat ->
  foldM (graph_step net kwargs)
        (imap (fun j l => ((off + j)%nat, l)) mids) (outs ++ [prev], mons, upds)
  = Ok ((outs ++ [prev]) ++ ((fun r => r.1.1) <$> chain prev mids),
        mons ++ mjoin ((fun r => r.1.2) <$> chain prev mids),
        upds ++ mjoin ((fun r => r.2) <$> chain prev mids)).
Proof.
  revert off outs prev mons upds.
  induction mids as [|l mids IH]; intros off outs prev mons upds H1 H2.
  - cbn [imap foldM chain fmap list_fmap mjoin list_join].
    by rewrite !app_nil_r.
  - cbn [imap foldM]. simpl length in H2.
    rewrite (graph_step_eq net kwargs _ _ _ _ _ (Single prev) (PyInt 0) (PyInt 0))
      by (apply layer_args_middle; lia).
    cbn [mbind result_bind].
    rewrite (imap_ext _ (fun j l => ((S off + j)%nat, l)))
      by (intros j x _; simpl; f_equal; lia).
    rewrite (IH (S off)) by lia.
    cbn [chain fmap list_fmap mjoin list_join].
    by rewrite <- !app_assoc.
Qed.

(** X6: the graph of a network of two layers or more is a chain.  The
    first layer is given [x] with the [input_noise] and [input_dropouts]
    options; every layer between the first and the last is given the output
    before it with noise 0 and dropout 0, whatever the options say; the last
    layer is given the slice [outputs[-decode_from:]] with the [hidden_noise]
    and [hidden_dropouts] options.  Monitors and updates are gathered in
    layer order. *)
Theorem graph_is_a_chain (net : Network) (kwargs : keywords) (l0 dec : Layer)
        (mids : list Layer) :
  net_layers net = l0 :: mids ++ [dec] ->
  let r0 := layer_output l0 (Single (net_x net))
                         (option_or_zero "input_noise" kwargs)
                         (option_or_zero "input_dropouts" kwargs) in
  let rs := chain r0.1.1 mids in
  let prior := r0.1.1 :: ((fun r => r.1.1) <$> rs) in
  let rd := layer_output dec
              (Group (slice_from (- decode_from (net_kwargs net)) prior))
              (option_or_zero "hidden_noise" kwargs)
              (option_or_zero "hidden_dropouts" kwargs) in
  graph net kwargs
  = Ok (prior ++ [rd.1.1],
        r0.1.2 ++ mjoin ((fun r => r.1.2) <$> rs) ++ rd.1.2,
        r0.2 ++ mjoin ((fun r => r.2) <$> rs) ++ rd.2).
Proof.
  intros Hls r0 rs prior rd. unfold graph, enumerate. rewrite Hls.
  cbn [imap foldM].
  rewrite (graph_step_eq net kwargs _ _ _ _ _ _ _ _ (layer_args_first net kwargs [])).
  cbn [mbind result_bind]. fold r0.
  rewrite imap_app, foldM_app.
  rewrite (imap_ext _ (fun j l => ((1 + j)%nat, l)) mids) by done.
  rewrite (graph_middle net kwargs mids 1 [] r0.1.1)
    by (rewrite ?Hls, ?length_cons, ?length_app; simpl; lia).
  cbn [mbind result_bind imap foldM]. fold rs.
  unfold compose. rewrite Nat.add_0_r. cbn [app].
  rewrite (graph_step_eq net kwargs _ _ _ _ _
             (Group (slice_from (- decode_from (net_kwargs net)) prior))
             (option_or_zero "hidden_noise" kwargs)
             (option_or_zero "hidden_dropouts" kwargs)).
  - cbn [mbind result_bind]. fold rd. unfold prior.
    by rewrite <- !app_assoc.
  - by apply (layer_args_decoder net kwargs (l0 :: mids) dec).
Qed.

Lemma foldM_ext_fun {A B : Type} (f g : A -> B -> result A) (l : list B) (a : A) :
  (forall a b, f a b = g a b) -> foldM f l a = foldM g l a.
Proof.
  intros H. revert a. induction l as [|b l IH]; intros a; simpl; [done|].
  rewrite H. destruct (g a b); simpl; [apply IH | done].
Qed.

(** X7: the graph depends on four options only, [input_noise],
    [input_dropouts], [hidden_noise] and [hidden_dropouts]: option mappings
    that give these the same values build equal graphs, whatever else they
    hold (regularisation weights, unknown names) and in whatever order. *)
Theorem graph_reads_four_options (net : Network) (kw1 kw2 : keywords) :
  Forall (fun key => kwargs_get key kw1 = kwargs_get key kw2)
         ["input_noise"; "input_dropouts"; "hidden_noise"; "hidden_dropouts"] ->
  graph net kw1 = graph net kw2.
Proof.
  intros H.
  apply Forall_cons in H as [Hin H]. apply Forall_cons in H as [Hid H].
  apply Forall_cons in H as [Hhn H]. apply Forall_cons in H as [Hhd _].
  unfold graph. apply foldM_ext_fun. intros [[outs mons] upds] [i l].
  unfold graph_step, layer_args, option_or_zero.
  by rewrite Hin, Hid, Hhn, Hhd.
Qed.

(** ** Sequences of calls *)

(** [predict] leaves the state its [feed_forward] call leaves. *)
Lemma predict_state st : (predict st).2 = (feed_forward [] st).2.
Proof.
  unfold predict. destruct (feed_forward [] st) as [[f|e] st']; [|done].
  cbn [snd]. by destruct (cells st'.2 !! f) as [[]|].
Qed.

Lemma perform_ok st c :
  cache_ok st ->
  cache_ok (perform st c) /\ heap_le st.2 (perform st c).2 /\
  net_layers (perform st c).1 = net_layers st.1 /\
  _graphs st.1 ⊆ _graphs (perform st c).1 /\
  _functions st.1 ⊆ _functions (perform st c).1.
Proof.
  destruct st as [net h]. intros Hok.
  destruct c as [kw|kw|kw|]; cbn [perform]; rewrite ?predict_state.
  - destruct (build_graph_ok kw net h Hok)
      as (t & net' & h' & -> & ? & ? & ? & _ & ? & Hf).
    cbn [fst snd]. by rewrite Hf.
  - by destruct (feed_forward_ok kw net h Hok)
      as (r & net' & h' & -> & ? & ? & ? & _ & ? & ? & _).
  - destruct (loss_ok kw net h Hok)
      as (r & net' & h' & -> & ? & ? & ? & ? & Hf).
    cbn [fst snd]. by rewrite Hf.
  - by destruct (feed_forward_ok [] net h Hok)
      as (r & net' & h' & -> & ? & ? & ? & _ & ? & ? & _).
Qed.

Lemma run_ok calls st :
  cache_ok st ->
  cache_ok (run calls st) /\ heap_le st.2 (run calls st).2 /\
  net_layers (run calls st).1 = net_layers st.1 /\
  _graphs st.1 ⊆ _graphs (run calls st).1 /\
  _functions st.1 ⊆ _functions (run calls st).1.
Proof.
  revert st. induction calls as [|c calls IH]; intros st Hok.
  - unfold run. cbn [foldl]. split; [done|]. split; [apply heap_le_refl|]. done.
  - destruct (perform_ok st c Hok) as (H1 & H2 & H3 & H4 & H5).
    destruct (IH _ H1) as (I1 & I2 & I3 & I4 & I5).
    unfold run in *. cbn [foldl].
    split; [done|]. split; [by eapply heap_le_trans|].
    split; [congruence|]. split; by etrans.
Qed.

(** X8: whatever calls of [build_graph], [feed_forward], [loss] and
    [predict] a constructed network has served, in whatever order and with
    whatever options, its layers are the ones it was constructed with and its
    caches are well formed; and every cache entry is kept by all later calls:
    the key still maps to the same object, which still is a graph tuple
    (a compiled function).  No call evicts or replaces an entry. *)
Theorem calls_keep_caches (kw : options) (net : Network) (calls more : list call) :
  __init__ kw = Ok net ->
  let st := run calls (net, empty_heap) in
  let st' := run more st in
  cache_ok st /\
  net_layers st.1 = net_layers net /\
  (forall k t, _graphs st.1 !! k = Some t ->
               _graphs st'.1 !! k = Some t /\ is_graph st'.2 t) /\
  (forall k f, _functions st.1 !! k = Some f ->
               _functions st'.1 !! k = Some f /\ is_function st'.2 f).
Proof.
  intros Hinit st st'.
  destruct (run_ok calls (net, empty_heap) (init_cache_ok kw net Hinit))
    as (Hok & _ & Hls & _ & _).
  destruct (run_ok more st Hok) as (Hok' & _ & _ & Hg & Hf).
  split; [done|]. split; [done|]. split.
  - intros k t Hk. pose proof (lookup_weaken _ _ _ _ Hk Hg) as Hk'.
    split; [done|]. by eapply (ok_graphs _ Hok').
  - intros k f Hk. pose proof (lookup_weaken _ _ _ _ Hk Hf) as Hk'.
    split; [done|]. by eapply (ok_functions _ Hok').
Qed.

(** *** Compiled functions and the mutation of monitors *)

Lemma heap_keeps_refl h : heap_keeps h h.
Proof. by intros l c Hl _. Qed.

Lemma heap_keeps_trans h1 h2 h3 :
  heap_keeps h1 h2 -> heap_keeps h2 h3 -> heap_keeps h1 h3.
Proof. intros H12 H23 l c Hl Hc. apply H23; [|done]. by apply H12. Qed.

Lemma alloc_keeps c h :
  (forall l c, cells h !! l = Some c -> (l < next h)%nat) ->
  heap_keeps h (alloc c h).2.
Proof.
  intros Hb l c' Hl _. cbn [alloc snd cells].
  rewrite lookup_insert_ne; [done|]. apply Hb in Hl. lia.
Qed.

Lemma graph_cells_keeps outs mons upds h :
  (forall l c, cells h !! l = Some c -> (l < next h)%nat) ->
  heap_keeps h (graph_cells outs mons upds h).
Proof.
  intros Hb l c Hl _. pose proof (Hb _ _ Hl).
  unfold graph_cells. cbn [cells]. by rewrite !lookup_insert_ne by lia.
Qed.

Lemma store_monitors_keeps m old new h :
  cells h !! m = Some (CMonitors old) ->
  heap_keeps h (store_cell m (CMonitors new) h).
Proof.
  intros Hm l c Hl Hc. cbn [store_cell cells].
  destruct (decide (m = l)) as [<-|Hne].
  - rewrite Hm in Hl. injection Hl as <-. by destruct (Hc old).
  - by rewrite lookup_insert_ne.
Qed.

Lemma build_graph_keeps kwargs net h :
  cache_ok (net, h) ->
  heap_keeps h (build_graph kwargs (net, h)).2.2 /\
  net_x (build_graph kwargs (net, h)).2.1 = net_x net.
Proof.
  intros Hok.
  destruct (_graphs net !! _hash net kwargs) as [t|] eqn:Hkey.
  - rewrite (build_graph_hit _ _ _ _ Hkey). split; [apply heap_keeps_refl | done].
  - destruct (build_graph_miss kwargs net h Hkey) as (outs & mons & upds & _ & ->).
    split; [|done]. apply graph_cells_keeps. apply (ok_bounded _ Hok).
Qed.

Lemma loss_keeps kwargs net h :
  cache_ok (net, h) ->
  heap_keeps h (loss kwargs (net, h)).2.2 /\
  net_x (loss kwargs (net, h)).2.1 = net_x net.
Proof.
  intros Hok. pose proof (build_graph_keeps kwargs net h Hok) as [Hk Hx].
  unfold loss.
  destruct (build_graph_ok kwargs net h Hok)
    as (t & net1 & h1 & Heq & Hok1 & _ & _ & Ht & _ & _).
  rewrite Heq in Hk, Hx |- *. cbn [fst snd] in Hk, Hx.
  destruct (ok_graphs _ Hok1 _ _ Ht)
    as (o & m & u & outs & mons & upds & Hct & Hco & Hcm & Hcu).
  cbn [fst snd] in *.
  unfold unpack, read_outputs, read_monitors. rewrite Hct.
  cbn [mbind result_bind]. rewrite Hco. cbn [mbind result_bind].
  destruct (index_last outs) as [last|e]; cbn [mbind result_bind]; [|done].
  rewrite Hcm. cbn [mbind result_bind fst snd].
  split; [|done]. eapply heap_keeps_trans; [exact Hk|].
  by eapply store_monitors_keeps.
Qed.

Lemma consistent_step st st' :
  functions_consistent st ->
  heap_keeps st.2 st'.2 ->
  _graphs st.1 ⊆ _graphs st'.1 ->
  _functions st'.1 = _functions st.1 ->
  net_x st'.1 = net_x st.1 ->
  functions_consistent st'.
Proof.
  intros Hc Hk Hg Hf Hx k f. rewrite Hf, Hx. intros Hkf.
  destruct (Hc k f Hkf) as (t & o & u & m & outs & upds & Ht & Hct & Hco & Hcu & Hcf).
  exists t, o, u, m, outs, upds.
  split; [by eapply lookup_weaken|].
  repeat split; by apply Hk.
Qed.

Lemma feed_forward_consistent kwargs net h :
  cache_ok (net, h) -> functions_consistent (net, h) ->
  functions_consistent (feed_forward kwargs (net, h)).2.
Proof.
  intros Hok Hc. pose proof (build_graph_keeps kwargs net h Hok) as [Hk Hx].
  unfold feed_forward. cbn [fst].
  destruct (_functions net !! _hash net kwargs) as [f|] eqn:Hkey; [done|].
  destruct (build_graph_ok kwargs net h Hok)
    as (t & net1 & h1 & Heq & Hok1 & _ & _ & Ht & Hsub & Hfun).
  rewrite Heq in Hk, Hx |- *. cbn [fst snd] in Hk, Hx.
  assert (Hc1 : functions_consistent (net1, h1)) by by eapply consistent_step.
  pose proof (ok_bounded _ Hok1) as Hb1.
  destruct (ok_graphs _ Hok1 _ _ Ht)
    as (o & m & u & outs & mons & upds & Hct & Hco & Hcm & Hcu).
  cbn [fst snd] in *.
  unfold unpack, read_outputs, read_updates. rewrite Hct.
  cbn [mbind result_bind]. rewrite Hco. cbn [mbind result_bind]. rewrite Hcu.
  cbn [mbind result_bind].
  destruct (theano_function [net_x net1] outs upds) as [c|e] eqn:Hcompile;
    [|done].
  apply theano_function_inv in Hcompile as ->. cbn [alloc snd].
  pose proof (alloc_keeps (CFunction [net_x net1] outs upds) h1 Hb1) as Hk2.
  cbn [alloc snd] in Hk2.
  intros k f. cbn [fst snd _functions _graphs set_functions net_x cells].
  rewrite lookup_insert_Some. intros [[<- <-]|[_ Hkf]].
  - exists t, o, m, u, outs, upds. split; [done|].
    split; [by apply Hk2|]. split; [by apply Hk2|]. split; [by apply Hk2|].
    by rewrite lookup_insert_eq.
  - destruct (Hc1 k f Hkf)
      as (t' & o' & m' & u' & outs' & upds' & Ht' & Hct' & Hco' & Hcu' & Hcf').
    cbn [fst snd] in *.
    exists t', o', m', u', outs', upds'. split; [done|].
    repeat split; by apply Hk2.
Qed.

Lemma perform_consistent st c :
  cache_ok st -> functions_consistent st -> functions_consistent (perform st c).
Proof.
  destruct st as [net h]. intros Hok Hc.
  destruct c as [kw|kw|kw|]; cbn [perform]; rewrite ?predict_state;
    try by apply feed_forward_consistent.
  - destruct (build_graph_keeps kw net h Hok) as [Hk Hx].
    destruct (build_graph_ok kw net h Hok)
      as (t & net' & h' & Heq & _ & _ & _ & _ & Hg & Hf).
    rewrite Heq in Hk, Hx |- *. by eapply consistent_step.
  - destruct (loss_keeps kw net h Hok) as [Hk Hx].
    destruct (loss_ok kw net h Hok)
      as (r & net' & h' & Heq & _ & _ & _ & Hg & Hf).
    rewrite Heq in Hk, Hx |- *. by eapply consistent_step.
Qed.

Lemma run_consistent kw net calls :
  __init__ kw = Ok net ->
  functions_consistent (run calls (net, empty_heap)).
Proof.
  intros Hinit.
  assert (Hinv : forall calls st,
             cache_ok st -> functions_consistent st ->
             functions_consistent (run calls st)).
  { clear. intros calls. induction calls as [|c calls IH]; intros st Hok Hc; [done|].
    unfold run in *. cbn [foldl]. apply IH.
    - by apply perform_ok.
    - by apply perform_consistent. }
  apply Hinv; [by eapply init_cache_ok|].
  apply init_variables in Hinit as (_ & _ & _ & _ & Hf).
  intros k f. cbn [fst]. by rewrite Hf, lookup_empty.
Qed.

(** X10: at any time in the life of a constructed network, every compiled
    function in the function cache takes [x] alone as input and gives the
    outputs and the updates that the graph cached under the same key holds
    now.  The entries that [loss] adds to a cached graph go to its monitors
    list only: they never reach the outputs or the updates, and a compiled
    function is never changed after it was made. *)
Theorem functions_follow_graphs (kw : options) (net : Network) (calls : list call) :
  __init__ kw = Ok net ->
  functions_consistent (run calls (net, empty_heap)).
Proof.
  intros Hinit. by eapply run_consistent.
Qed.

(** *** What the calls return *)

Lemma build_graph_attributes kwargs st :
  same_attributes st.1 (build_graph kwargs st).2.1.
Proof.
  destruct st as [net h]. unfold build_graph.
  destruct (_graphs net !! _hash net kwargs); [done|].
  by destruct (graph net kwargs) as [[[outs mons] upds]|e].
Qed.

Lemma same_attributes_trans n1 n2 n3 :
  same_attributes n1 n2 -> same_attributes n2 n3 -> same_attributes n1 n3.
Proof.
  intros (?&?&?&?&?) (?&?&?&?&?). repeat split; congruence.
Qed.

Lemma feed_forward_attributes kwargs st :
  same_attributes st.1 (feed_forward kwargs st).2.1.
Proof.
  unfold feed_forward.
  destruct (_functions st.1 !! _hash st.1 kwargs); [done|].
  pose proof (build_graph_attributes kwargs st) as Hb.
  destruct (build_graph kwargs st) as [[t|e] [net1 h1]]; [|done].
  cbn [fst snd] in *.
  destruct (_ ≫= _) as [[outs upds]|e]; [|done].
  destruct (theano_function [net_x net1] outs upds) as [c|e]; [|done].
  cbn [alloc fst snd]. eapply same_attributes_trans; [exact Hb|]. done.
Qed.

Lemma loss_attributes kwargs st :
  same_attributes st.1 (loss kwargs st).2.1.
Proof.
  unfold loss.
  pose proof (build_graph_attributes kwargs st) as Hb.
  destruct (build_graph kwargs st) as [[t|e] [net1 h1]]; [|done].
  cbn [fst snd] in *.
  by destruct (_ ≫= _) as [[[[[[o m] u] outs] last] mons]|e].
Qed.

Lemma run_attributes calls st : same_attributes st.1 (run calls st).1.
Proof.
  revert st. induction calls as [|c calls IH]; intros st; [done|].
  unfold run in *. cbn [foldl].
  eapply same_attributes_trans; [|apply IH].
  destruct c; cbn [perform]; rewrite ?predict_state;
    auto using build_graph_attributes, feed_forward_attributes, loss_attributes.
Qed.

Lemma graph_same_attributes net net' kwargs :
  same_attributes net net' -> graph net' kwargs = graph net kwargs.
Proof.
  intros (Hkw & Hx & _ & _ & Hls). unfold graph. rewrite Hls.
  apply foldM_ext_fun. intros [[outs mons] upds] [i l].
  unfold graph_step, layer_args. by rewrite Hkw, Hx, Hls.
Qed.

Lemma computed_step st st' :
  graphs_computed st ->
  heap_keeps st.2 st'.2 ->
  _graphs st'.1 = _graphs st.1 ->
  same_attributes st.1 st'.1 ->
  graphs_computed st'.
Proof.
  intros Hs Hk Hg Hattr k t. rewrite Hg. intros Hkt.
  destruct (Hs k t Hkt) as (kw & o & m & u & outs & mons & upds & Hgr & Hct & Hco & Hcu).
  exists kw, o, m, u, outs, mons, upds.
  split; [by rewrite (graph_same_attributes _ _ _ Hattr)|].
  repeat split; by apply Hk.
Qed.

Lemma same_attributes_refl net : same_attributes net net.
Proof. done. Qed.

Lemma build_graph_computed kwargs net h :
  cache_ok (net, h) -> graphs_computed (net, h) ->
  graphs_computed (build_graph kwargs (net, h)).2.
Proof.
  intros Hok Hs.
  destruct (_graphs net !! _hash net kwargs) as [t|] eqn:Hkey.
  - by rewrite (build_graph_hit _ _ _ _ Hkey).
  - destruct (build_graph_miss kwargs net h Hkey) as (outs & mons & upds & Hg & ->).
    pose proof (graph_cells_keeps outs mons upds h (ok_bounded _ Hok)) as Hk.
    assert (Hattr : same_attributes net
                      (set_graphs (<[_hash net kwargs := (3 + next h)%nat]>
                                     (_graphs net)) net)) by done.
    intros k t. cbn [fst snd _graphs set_graphs].
    rewrite lookup_insert_Some. intros [[_ <-]|[_ Hkt]].
    + exists kwargs, (next h), (1 + next h)%nat, (2 + next h)%nat, outs, mons, upds.
      split; [by rewrite (graph_same_attributes _ _ _ Hattr)|].
      unfold graph_cells. cbn [cells].
      repeat split;
        by repeat (rewrite lookup_insert_eq || rewrite lookup_insert_ne by lia).
    + destruct (Hs k t Hkt)
        as (kw & o & m & u & outs0 & mons0 & upds0 & Hgr & Hct & Hco & Hcu).
      exists kw, o, m, u, outs0, mons0, upds0.
      split; [by rewrite (graph_same_attributes _ _ _ Hattr)|].
      repeat split; by apply Hk.
Qed.

Lemma feed_forward_computed kwargs net h :
  cache_ok (net, h) -> graphs_computed (net, h) ->
  graphs_computed (feed_forward kwargs (net, h)).2.
Proof.
  intros Hok Hs. pose proof (build_graph_computed kwargs net h Hok Hs) as Hs1.
  unfold feed_forward. cbn [fst].
  destruct (_functions net !! _hash net kwargs) as [f|] eqn:Hkey; [done|].
  destruct (build_graph_ok kwargs net h Hok)
    as (t & net1 & h1 & Heq & Hok1 & _ & _ & Ht & _ & _).
  rewrite Heq in Hs1 |- *. cbn [snd] in Hs1.
  destruct (_ ≫= _) as [[outs upds]|e]; [|done].
  destruct (theano_function [net_x net1] outs upds) as [c|e]; [|done].
  cbn [alloc]. eapply computed_step; [exact Hs1| |done|done].
  apply (alloc_keeps c h1 (ok_bounded _ Hok1)).
Qed.

Lemma loss_computed kwargs net h :
  cache_ok (net, h) -> graphs_computed (net, h) ->
  graphs_computed (loss kwargs (net, h)).2.
Proof.
  intros Hok Hs. pose proof (build_graph_computed kwargs net h Hok Hs) as Hs1.
  unfold loss.
  destruct (build_graph_ok kwargs net h Hok)
    as (t & net1 & h1 & Heq & Hok1 & _ & _ & Ht & _ & _).
  rewrite Heq in Hs1 |- *. cbn [snd] in Hs1.
  destruct (ok_graphs _ Hok1 _ _ Ht)
    as (o & m & u & outs & mons & upds & Hct & Hco & Hcm & Hcu).
  cbn [fst snd] in *.
  unfold unpack, read_outputs, read_monitors. rewrite Hct.
  cbn [mbind result_bind]. rewrite Hco. cbn [mbind result_bind].
  destruct (index_last outs) as [last|e]; cbn [mbind result_bind]; [|done].
  rewrite Hcm. cbn [mbind result_bind].
  eapply computed_step; [exact Hs1| |done|done].
  by eapply store_monitors_keeps.
Qed.

Lemma run_computed calls st :
  cache_ok st -> graphs_computed st -> graphs_computed (run calls st).
Proof.
  revert st. induction calls as [|c calls IH]; intros st Hok Hs; [done|].
  unfold run in *. cbn [foldl]. apply IH; [by apply perform_ok|].
  destruct st as [net h].
  destruct c; cbn [perform]; rewrite ?predict_state;
    auto using build_graph_computed, feed_forward_computed, loss_computed.
Qed.

(** A computed graph has one output per layer. *)
Lemma computed_shaped st : graphs_computed st -> graphs_shaped st.
Proof.
  intros Hs k t Hkt.
  destruct (Hs k t Hkt) as (kw & o & m & u & outs & mons & upds & Hgr & Hct & Hco & Hcu).
  destruct (graph_total st.1 kw) as (outs' & mons' & upds' & Hgr' & Hall).
  rewrite Hgr in Hgr'. injection Hgr' as <- <- <-.
  by exists o, m, u, outs.
Qed.





(** What a constructed network is at any later time: the attributes it was
    constructed with, well-formed caches, graphs that the loop computed. *)
Lemma run_from_init kw net calls :
  __init__ kw = Ok net ->
  same_attributes net (run calls (net, empty_heap)).1 /\
  cache_ok (run calls (net, empty_heap)) /\
  graphs_computed (run calls (net, empty_heap)).
Proof.
  intros Hinit. pose proof (init_cache_ok kw net Hinit) as Hok.
  split; [apply (run_attributes calls (net, empty_heap))|].
  split; [by apply run_ok|]. apply run_computed; [done|].
  apply init_variables in Hinit as (_ & _ & _ & Hg & _).
  intros k t. cbn [fst]. by rewrite Hg, lookup_empty.
Qed.

Lemma error_same_attributes net net' output :
  same_attributes net net' -> error net' output = error net output.
Proof. intros (Hkw & Hx & Hw & _ & _). unfold error. by rewrite Hkw, Hx, Hw. Qed.

Lemma regularization_same_attributes net net' kwargs hiddens :
  same_attributes net net' ->
  regularization net' kwargs hiddens = regularization net kwargs hiddens.
Proof.
  intros (_ & Hx & _ & _ & Hls). unfold regularization, regularizers.
  by rewrite Hx, Hls.
Qed.

Lemma slice_inner_snoc {A : Type} (l : list A) (a : A) :
  slice_inner (l ++ [a]) = drop 1 l.
Proof. unfold slice_inner. by rewrite slice_init_snoc. Qed.

(** X11: on a constructed network with at least one layer, [loss] never
    raises, at any time and for any options.  Its expression is the error of
    an output of the last layer plus the sum of the regularisation terms,
    these taken over the outputs of the layers strictly between the first and
    the last; the monitors and updates it returns are the list objects of the
    cached graph. *)
Theorem loss_returns (kw : options) (net : Network) (pre : list Layer) (dec : Layer)
        (calls : list call) (kwargs : keywords) :
  __init__ kw = Ok net ->
  net_layers net = pre ++ [dec] ->
  let st := run calls (net, empty_heap) in
  exists out hiddens t o m u st',
    loss kwargs st
    = (Ok (Add (error net out) (py_sum (regularization net kwargs hiddens)), m, u),
       st') /\
    output_of dec out /\
    Forall2 output_of (drop 1 pre) hiddens /\
    _graphs st'.1 !! _hash net kwargs = Some t /\
    cells st'.2 !! t = Some (CTuple o m u).
Proof.
  intros Hinit Hls st.
  destruct (run_from_init kw net calls Hinit) as (Hattr & Hok & Hs).
  fold st in Hattr, Hok, Hs. destruct st as [net0 h0]. cbn [fst] in Hattr.
  pose proof (computed_shaped _ (build_graph_computed kwargs net0 h0 Hok Hs))
    as Hs1.
  pose proof (build_graph_attributes kwargs (net0, h0)) as Hattr1.
  unfold loss.
  destruct (build_graph_ok kwargs net0 h0 Hok)
    as (t & net1 & h1 & Heq & Hok1 & _ & _ & Ht & _ & _).
  rewrite Heq in Hs1, Hattr1 |- *. cbn [fst snd] in Hs1, Hattr1.
  pose proof (same_attributes_trans _ _ _ Hattr Hattr1) as Hattr01.
  destruct (ok_graphs _ Hok1 _ _ Ht)
    as (o & m & u & outs & mons & upds & Hct & Hco & Hcm & Hcu).
  destruct (Hs1 _ _ Ht) as (o' & m' & u' & outs' & Hct' & Hco' & Hall).
  cbn [fst snd] in *.
  rewrite Hct in Hct'. injection Hct' as <- <- <-.
  rewrite Hco in Hco'. injection Hco' as <-.
  destruct Hattr01 as (Hkw & Hx & Hw & Hin & Hls1).
  rewrite Hls1, Hls in Hall.
  apply Forall2_app_inv_l in Hall as (outs1 & last & Hall1 & Hlast & ->).
  apply Forall2_cons_inv_l in Hlast as (out & nil & Hout & Hnil & ->).
  apply Forall2_nil_inv_l in Hnil as ->.
  unfold unpack, read_outputs, read_monitors. rewrite Hct.
  cbn [mbind result_bind]. rewrite Hco. cbn [mbind result_bind].
  rewrite index_last_snoc. cbn [mbind result_bind].
  rewrite Hcm. cbn [mbind result_bind].
  rewrite slice_inner_snoc.
  assert (Hattr' : same_attributes net net1) by done.
  rewrite (error_same_attributes net net1 out Hattr').
  rewrite (regularization_same_attributes net net1 kwargs _ Hattr').
  exists out, (drop 1 outs1), t, o, m, u. eexists. split; [reflexivity|].
  split; [done|]. split; [by apply Forall2_drop|].
  cbn [fst snd store_cell cells].
  split.
  - rewrite (hash_same_layers net0 net kwargs); [done|].
    destruct Hattr as (_ & _ & _ & _ & ?). congruence.
  - destruct (decide (m = t)) as [->|Hne]; [congruence|].
    by rewrite lookup_insert_ne.
Qed.

(** X12: a network constructed without the [layers] option has no layers.
    [build_graph] caches an empty graph for it, and [loss] raises
    [IndexError] at any time and for any options, after that graph was
    cached. *)
Theorem network_without_layers (kw : options) (calls : list call) (kwargs : keywords) :
  opt_layers kw = None ->
  exists net,
    __init__ kw = Ok net /\ net_layers net = [] /\
    graph net kwargs = Ok ([], [], []) /\
    exists st',
      loss kwargs (run calls (net, empty_heap))
      = (Raise (IndexError "list index out of range"), st') /\
      is_Some (_graphs st'.1 !! _hash net kwargs).
Proof.
  intros Hkw.
  assert (Hinit : exists net, __init__ kw = Ok net /\ net_layers net = []).
  { unfold __init__, setup_layers. rewrite Hkw.
    destruct (setup_vars kw) as [vars inputs]. cbn [mbind result_bind].
    by eexists. }
  destruct Hinit as (net & Hinit & Hls). exists net.
  split; [done|]. split; [done|].
  split; [unfold graph, enumerate; by rewrite Hls|].
  destruct (run_from_init kw net calls Hinit) as (Hattr & Hok & Hs).
  destruct (run calls (net, empty_heap)) as [net0 h0]. cbn [fst] in Hattr.
  pose proof (computed_shaped _ (build_graph_computed kwargs net0 h0 Hok Hs))
    as Hs1.
  pose proof (build_graph_attributes kwargs (net0, h0)) as Hattr1.
  unfold loss.
  destruct (build_graph_ok kwargs net0 h0 Hok)
    as (t & net1 & h1 & Heq & Hok1 & _ & _ & Ht & _ & _).
  rewrite Heq in Hs1, Hattr1 |- *. cbn [fst snd] in Hs1, Hattr1.
  pose proof (same_attributes_trans _ _ _ Hattr Hattr1) as Hattr01.
  destruct (Hs1 _ _ Ht) as (o & m & u & outs & Hct & Hco & Hall).
  cbn [fst snd] in *.
  destruct Hattr01 as (_ & _ & _ & _ & Hls1).
  rewrite Hls1, Hls in Hall. apply Forall2_nil_inv_l in Hall as ->.
  unfold unpack, read_outputs. rewrite Hct.
  cbn [mbind result_bind]. rewrite Hco. cbn [mbind result_bind index_last last].
  eexists. split; [reflexivity|]. cbn [fst].
  rewrite (hash_same_layers net0 net kwargs); [by eexists|].
  destruct Hattr as (_ & _ & _ & _ & ?). congruence.
Qed.


(** *** Memoisation of [feed_forward] *)




(** ** The decoder: what it is declared with and what it is given *)

Lemma slice_from_Forall2 {A B : Type} (P : A -> B -> Prop) (s : Z)
      (l : list A) (k : list B) :
  Forall2 P l k -> Forall2 P (slice_from s l) (slice_from s k).
Proof.
  intros H. unfold slice_from. rewrite <- (Forall2_length _ _ _ H).
  by apply Forall2_drop.
Qed.

Lemma slice_from_fmap {A B : Type} (f : A -> B) (s : Z) (l : list A) :
  slice_from s (f <$> l) = f <$> slice_from s l.
Proof. unfold slice_from. by rewrite length_fmap, fmap_drop. Qed.

Lemma slice_from_nonneg {A : Type} (s : Z) (l : list A) :
  0 <= s -> slice_from s l = drop (Z.to_nat s) l.
Proof.
  intros Hs. unfold slice_from.
  destruct (Z.ltb_spec s 0) as [|_]; [lia|].
  destruct (Z.le_gt_cases s (Z.of_nat (length l))) as [Hle|Hgt].
  - by rewrite Z.min_l.
  - rewrite Z.min_r by lia. rewrite Nat2Z.id.
    rewrite drop_all. symmetry. apply drop_ge. lia.
Qed.

(** The graph of a network of two layers or more ends with the output of the
    last layer, called on a slice of the outputs before it. *)
Lemma decoder_fed net kwargs pre dec :
  net_layers net = pre ++ [dec] -> pre <> [] ->
  exists prior mons upds,
    graph net kwargs
    = Ok (prior ++
          [(layer_output dec
              (Group (slice_from (- decode_from (net_kwargs net)) prior))
              (option_or_zero "hidden_noise" kwargs)
              (option_or_zero "hidden_dropouts" kwargs)).1.1],
          mons, upds) /\
    Forall2 output_of pre prior.
Proof.
  intros Hls Hpre.
  destruct (graph_loop net kwargs pre 0 [] [] [] eq_refl)
    as (prior & mons & upds & Hloop & Hall).
  pose proof (Forall2_length _ _ _ Hall) as Hlen.
  pose proof (layer_args_decoder net kwargs pre dec prior Hls Hpre) as Hargs.
  eexists prior, _, _. split; [|done].
  unfold graph, enumerate. rewrite Hls, imap_app, foldM_app.
  simpl in Hloop. rewrite Hloop. cbn [mbind result_bind imap foldM].
  replace (length pre + 0)%nat with (length pre) by lia.
  rewrite (graph_step_eq net kwargs _ _ _ _ _ _ _ _ Hargs). reflexivity.
Qed.

(** The [nin] argument of the decoder request. *)
Lemma decoder_request_nin kw ls req :
  decoder_request kw ls = Ok req ->
  (decode_from kw <= 1 ->
   exists l, last ls = Some l /\
             req_kwargs req !! "nin" = Some (VInt (layer_size l))) /\
  (2 <= decode_from kw ->
   req_kwargs req !! "nin"
   = Some (VList (VInt <$> layer_sizes (slice_from (- decode_from kw) ls)))).
Proof.
  unfold decoder_request. intros H.
  apply bind_Ok in H as (nin & Hnin & H).
  apply bind_Ok in H as (specs & _ & H).
  apply bind_Ok in H as (size & _ & H).
  injection H as <-. cbn [req_kwargs].
  rewrite lookup_insert_ne, lookup_insert_ne, lookup_insert_eq by done.
  destruct (Z.leb_spec (decode_from kw) 1) as [Hle|Hgt].
  - split; [intros _|lia].
    unfold index_last, layer_sizes in Hnin. rewrite fmap_last in Hnin.
    destruct (last ls) as [l|]; [|discriminate].
    injection Hnin as <-. by exists l.
  - split; [lia|intros _]. injection Hnin as <-.
    unfold layer_sizes. by rewrite slice_from_fmap.
Qed.

(** X14: for [decode_from >= 1], what [setup_decoder] declares and what
    [build_graph] feeds agree.  The last layer is called on the outputs of the
    last [decode_from] layers before it (all of them when there are fewer),
    and the [nin] it was requested with gives the sizes of exactly these
    layers, in the same order: one integer for [decode_from = 1], a list for
    [decode_from >= 2]. *)
Theorem decoder_nin_matches_inputs (net : Network) (kwargs : keywords)
        (pre : list Layer) (dec : Layer) (req : request) :
  net_layers net = pre ++ [dec] ->
  pre <> [] ->
  decoder_request (net_kwargs net) pre = Ok req ->
  1 <= decode_from (net_kwargs net) ->
  let fed := drop (length pre - Z.to_nat (decode_from (net_kwargs net))) pre in
  exists prior inputs mons upds,
    graph net kwargs
    = Ok (prior ++ [(layer_output dec (Group inputs)
                       (option_or_zero "hidden_noise" kwargs)
                       (option_or_zero "hidden_dropouts" kwargs)).1.1],
          mons, upds) /\
    Forall2 output_of pre prior /\
    Forall2 output_of fed inputs /\
    (decode_from (net_kwargs net) = 1 ->
     exists l, fed = [l] /\
               req_kwargs req !! "nin" = Some (VInt (layer_size l))) /\
    (2 <= decode_from (net_kwargs net) ->
     req_kwargs req !! "nin" = Some (VList (VInt <$> layer_sizes fed))).
Proof.
  intros Hls Hpre Hreq Hback fed.
  destruct (decoder_fed net kwargs pre dec Hls Hpre)
    as (prior & mons & upds & Hgraph & Hall).
  destruct (decoder_request_nin _ _ _ Hreq) as [Hone Hmany].
  assert (Hfed : fed = slice_from (- decode_from (net_kwargs net)) pre)
    by (by rewrite slice_from_neg).
  exists prior, (slice_from (- decode_from (net_kwargs net)) prior), mons, upds.
  split; [done|]. split; [done|].
  split; [rewrite Hfed; by apply slice_from_Forall2|]. split.
  - intros H1. destruct Hone as (l & Hlast & Hnin); [lia|].
    exists l. split; [|done]. unfold fed. rewrite H1.
    destruct (exists_last Hpre) as (init & l' & ->).
    rewrite last_snoc in Hlast. injection Hlast as ->.
    rewrite length_app. simpl.
    replace (length init + 1 - Z.to_nat 1)%nat with (length init) by lia.
    by rewrite drop_app_length.
  - intros H2. rewrite Hfed. by apply Hmany.
Qed.

(** X15: for [decode_from <= 0] they disagree.  The decoder is requested with
    [nin] the size of the one layer before it, as for [decode_from = 1]; but
    in the graph it is called on the slice [outputs[-decode_from:]], which
    for [decode_from = 0] is the outputs of all the layers before it and for
    [decode_from = -k] all but the first [k] of them. *)
Theorem decode_from_nonpositive (net : Network) (kwargs : keywords)
        (pre : list Layer) (dec : Layer) (req : request) :
  net_layers net = pre ++ [dec] ->
  pre <> [] ->
  decoder_request (net_kwargs net) pre = Ok req ->
  decode_from (net_kwargs net) <= 0 ->
  let fed := drop (Z.to_nat (- decode_from (net_kwargs net))) pre in
  exists l prior inputs mons upds,
    last pre = Some l /\
    req_kwargs req !! "nin" = Some (VInt (layer_size l)) /\
    graph net kwargs
    = Ok (prior ++ [(layer_output dec (Group inputs)
                       (option_or_zero "hidden_noise" kwargs)
                       (option_or_zero "hidden_dropouts" kwargs)).1.1],
          mons, upds) /\
    Forall2 output_of pre prior /\
    Forall2 output_of fed inputs /\
    (decode_from (net_kwargs net) = 0 -> inputs = prior).
Proof.
  intros Hls Hpre Hreq Hback fed.
  destruct (decoder_fed net kwargs pre dec Hls Hpre)
    as (prior & mons & upds & Hgraph & Hall).
  destruct (decoder_request_nin _ _ _ Hreq) as [Hone _].
  destruct Hone as (l & Hlast & Hnin); [lia|].
  exists l, prior, (slice_from (- decode_from (net_kwargs net)) prior), mons, upds.
  split; [done|]. split; [done|]. split; [done|]. split; [done|]. split.
  - unfold fed. rewrite <- (slice_from_nonneg _ pre) by lia.
    by apply slice_from_Forall2.
  - intros ->. by rewrite slice_from_nonneg.
Qed.

(** ** Reading a layer specification *)

Lemma dict_update_snoc (d : gmap string pyobj) items kv :
  dict_update d (items ++ [kv]) = <[kv.1 := kv.2]> (dict_update d items).
Proof. unfold dict_update. by rewrite foldl_app. Qed.

(** The entries of [items] win over those of [d]. *)
Lemma dict_update_lookup (d : gmap string pyobj) items k :
  dict_update d items !! k
  = match dict_update ∅ items !! k with
    | Some v => Some v
    | None => d !! k
    end.
Proof.
  induction items as [|kv items IH] using rev_ind.
  - cbn. by rewrite lookup_empty.
  - rewrite !dict_update_snoc.
    destruct (decide (kv.1 = k)) as [<-|Hne].
    + by rewrite !lookup_insert_eq.
    + by rewrite !lookup_insert_ne.
Qed.

(** X16: in a mapping specification the entries of the mapping win over
    every default of the builder: each key of the mapping reaches the factory
    with the value the mapping gives it (the last one, if a key is repeated).
    The one exception is [name] when the form is [bidirectional]: then the
    name is computed from the worker and the position, and a name given in the
    mapping is dropped. *)
Theorem dict_spec_overrides (kw : options) (rng : pyobj) (ls : list Layer)
        (items : list (string * pyobj)) (req : request) :
  encoder_request kw rng ls (VDict items) = Ok req ->
  (forall k v,
      dict_update ∅ items !! k = Some v ->
      k <> "name" \/ String.eqb (lower (req_form req)) "bidirectional" = false ->
      req_kwargs req !! k = Some v) /\
  (String.eqb (lower (req_form req)) "bidirectional" = true ->
   req_kwargs req !! "name"
   = Some (VStr ("bd" +:+
                 format (default (VStr "rnn") (dict_update ∅ items !! "worker")) +:+
                 pretty (length ls)))).
Proof.
  unfold encoder_request. intros H.
  apply bind_Ok in H as (prev & _ & H).
  cbn [is_int] in H.
  apply bind_Ok in H as ([form kwargs] & Hdict & H).
  apply bind_Ok in Hdict as ([form' kwargs'] & Hform & Hdict).
  injection Hdict as <- <-. injection H as <-. cbn [req_form req_kwargs].
  split.
  - intros k v Hk Hcase.
    destruct (String.eqb (lower form') "bidirectional") eqn:Hbd.
    + destruct Hcase as [Hne|]; [|done].
      rewrite lookup_insert_ne by done.
      by rewrite dict_update_lookup, Hk.
    + by rewrite dict_update_lookup, Hk.
  - intros ->. rewrite lookup_insert_eq. do 3 f_equal.
    rewrite (dict_update_lookup kwargs' items "worker").
    destruct (dict_update ∅ items !! "worker") as [w|] eqn:Hw; [done|].
    assert (Hnone : kwargs' !! "worker" = None); [|by rewrite Hnone].
    destruct (dict_update ∅ items !! "form") as [[]|];
      try discriminate; injection Hform as <- <-;
      by repeat (rewrite lookup_insert_ne by done).
Qed.

Lemma scan_element_size acc el :
  (scan_element acc el).2 !! "size"
  = if is_int el then Some el else acc.2 !! "size".
Proof.
  destruct acc as [form kwargs]. unfold scan_element.
  destruct el; cbn [is_int snd]; try done.
  - by rewrite lookup_insert_eq.
  - by rewrite lookup_insert_eq.
  - destruct (decide (lower s ∈ registry)); [done|].
    cbn [snd]. by rewrite lookup_insert_ne.
Qed.

Lemma scan_elements_no_int els acc :
  Forall (fun el => is_int el = false) els ->
  (foldl scan_element acc els).2 !! "size" = acc.2 !! "size".
Proof.
  intros H. revert acc. induction H as [|el els Hel _ IH]; intros acc; [done|].
  cbn [foldl]. by rewrite IH, scan_element_size, Hel.
Qed.

(** X17: in a tuple or list specification the size the factory is asked for
    is the last element that is an integer, wherever it stands among the
    other elements (a Python boolean counts as an integer). *)
Theorem tuple_spec_size (kw : options) (rng : pyobj) (ls : list Layer)
        (spec el : pyobj) (before after : list pyobj) (req : request) :
  spec = VTuple (before ++ el :: after) \/ spec = VList (before ++ el :: after) ->
  is_int el = true ->
  Forall (fun e => is_int e = false) after ->
  encoder_request kw rng ls spec = Ok req ->
  req_kwargs req !! "size" = Some el.
Proof.
  intros Hspec Hel Hafter. unfold encoder_request. intros H.
  apply bind_Ok in H as (prev & _ & H).
  assert (Hscan : forall acc,
             (foldl scan_element acc (before ++ el :: after)).2 !! "size" = Some el).
  { intros acc. rewrite foldl_app. cbn [foldl].
    by rewrite (scan_elements_no_int _ _ Hafter), scan_element_size, Hel. }
  destruct Hspec as [-> | ->]; cbn [is_int] in H;
    match type of H with
    | context [foldl scan_element ?acc _] =>
        specialize (Hscan acc); destruct (foldl scan_element acc _) as [form kwargs]
    end;
    cbn [mbind result_bind snd] in H, Hscan;
    destruct (String.eqb (lower form) "bidirectional");
    injection H as <-; cbn [req_kwargs];
    by repeat (rewrite lookup_insert_ne by done).
Qed.

(** ** The layers, position by position *)

Lemma encoder_loop_positions kw rng specs ls0 ls :
  foldM (encoder_step kw rng) specs ls0 = Ok ls ->
  forall j spec,
    specs !! j = Some spec ->
    encoder_step kw rng (take (length ls0 + j) ls) spec
    = Ok (take (length ls0 + j + 1) ls).
Proof.
  revert ls0. induction specs as [|spec0 specs IH]; intros ls0 H j spec Hj;
    [done|].
  cbn [foldM] in H. apply bind_Ok in H as (ls1 & Hstep & Hrest).
  pose proof Hstep as (l & ->)%encoder_step_snoc.
  pose proof Hrest as (added & -> & _)%encoder_loop_extends.
  destruct j as [|j].
  - cbn in Hj. injection Hj as <-.
    rewrite Nat.add_0_r. rewrite <- app_assoc at 1. rewrite take_app_length.
    replace (length ls0 + 1)%nat with (length (ls0 ++ [l]))
      by (rewrite length_app; simpl; lia).
    by rewrite take_app_length.
  - cbn in Hj. specialize (IH _ Hrest j spec Hj).
    rewrite length_app in IH. simpl in IH.
    by replace (length ls0 + S j)%nat with (length ls0 + 1 + j)%nat by lia.
Qed.

(** X18: the layers of a constructed network stand where their
    specifications stand.  For a position [i] that is neither the first nor
    the last: a [Layer] instance given as specification is the layer at [i],
    as it is; an integer [n] makes the layer at [i] the one the factory
    returned for the form [feedforward] with size [n], the name [hid<i>], the
    default hidden activation and, as its input, the output of the layer at
    [i - 1]. *)
Theorem layers_follow_specs (kw : options) (specs : list pyobj) (ls : list Layer)
        (i : nat) :
  opt_layers kw = Some specs ->
  setup_layers kw [] = Ok ls ->
  (1 <= i)%nat -> (i + 1 < length specs)%nat ->
  (forall l, specs !! i = Some (VLayer l) -> ls !! i = Some l) /\
  (forall n, specs !! i = Some (VInt n) ->
     exists prev l,
       ls !! (i - 1)%nat = Some prev /\ ls !! i = Some l /\
       build (mkRequest "feedforward" []
                (<["size" := VInt n]>
                 (<["rng" := match opt_rng kw with
                             | Some r => if truthy r then r else RandomStreams
                             | None => RandomStreams
                             end]>
                  (<["activation" :=
                       VStr (default "logistic" (opt_hidden_activation kw))]>
                   (<["inputs" :=
                        VDict [(layer_name prev +:+ ".out", VExpr (layer_out prev))]]>
                    (<["name" := VStr ("hid" +:+ pretty i)]> ∅))))))
       = Ok l).
Proof.
  intros Hkw H Hi1 Hi2. unfold setup_layers, encoding_layers in H.
  rewrite Hkw in H. cbn [mbind result_bind] in H.
  destruct (slice_init specs) as [|first mid] eqn:Hspecs; [discriminate|].
  apply bind_Ok in H as (l_in & _ & H).
  apply bind_Ok in H as (ls1 & Hloop & Hdec).
  apply setup_decoder_snoc in Hdec as (l_out & ->).
  pose proof Hloop as (added & Hls1 & Hadded)%encoder_loop_extends.
  assert (Hmid : forall spec, specs !! i = Some spec -> mid !! (i - 1)%nat = Some spec).
  { intros spec Hspec.
    assert (Hinit : slice_init specs !! i = Some spec).
    { unfold slice_init. rewrite lookup_take_lt by lia. done. }
    rewrite Hspecs in Hinit. destruct i as [|i]; [lia|].
    cbn in Hinit. by replace (S i - 1)%nat with i by lia. }
  assert (Hlen : length mid = (length specs - 2)%nat).
  { assert (S (length mid) = length (slice_init specs)) as Hl by by rewrite Hspecs.
    unfold slice_init in Hl. rewrite length_take in Hl. lia. }
  assert (Hlen1 : length ls1 = (length specs - 1)%nat).
  { rewrite Hls1, !length_app. simpl. lia. }
  assert (Hstep : forall spec,
             specs !! i = Some spec ->
             encoder_step kw
               match opt_rng kw with
               | Some r => if truthy r then r else RandomStreams
               | None => RandomStreams
               end (take i ls1) spec = Ok (take (i + 1) ls1)).
  { intros spec Hspec.
    pose proof (encoder_loop_positions _ _ _ _ _ Hloop (i - 1)%nat spec
                  (Hmid spec Hspec)) as Hpos.
    by replace (length ([] ++ [l_in]) + (i - 1))%nat with i in Hpos
      by (simpl; lia). }
  assert (Htake : forall l, take (i + 1) ls1 = take i ls1 ++ [l] ->
                            (ls1 ++ [l_out]) !! i = Some l).
  { intros l Hl. rewrite lookup_app_l by lia.
    rewrite <- (lookup_take_lt ls1 (i + 1) i) by lia.
    rewrite Hl. rewrite lookup_app_r by (rewrite length_take; lia).
    rewrite length_take. by replace (i - i `min` length ls1)%nat with 0%nat by lia. }
  split.
  - intros l Hspec. apply Htake.
    specialize (Hstep _ Hspec). cbn in Hstep. by injection Hstep as <-.
  - intros n Hspec. specialize (Hstep _ Hspec).
    unfold encoder_step, encoder_request in Hstep.
    apply bind_Ok in Hstep as (req & Hreq & Hbuild).
    apply bind_Ok in Hreq as (prev & Hprev & Hreq).
    cbn [is_int mbind result_bind] in Hreq.
    assert (Hbd : String.eqb (lower "feedforward") "bidirectional" = false)
      by reflexivity.
    rewrite Hbd in Hreq. injection Hreq as <-.
    apply bind_Ok in Hbuild as (l & Hbuild & Hl). injection Hl as Hl.
    rewrite length_take in Hbuild.
    replace (i `min` length ls1)%nat with i in Hbuild by lia.
    exists prev, l. split; [|split; [by apply Htake|exact Hbuild]].
    unfold index_last in Hprev.
    destruct (last (take i ls1)) as [p|] eqn:Hlast; [|discriminate].
    injection Hprev as ->.
    rewrite last_lookup, length_take in Hlast.
    replace (Init.Nat.pred (i `min` length ls1)) with (i - 1)%nat in Hlast by lia.
    rewrite lookup_take_lt in Hlast by lia.
    rewrite lookup_app_l by lia. done.
Qed.

(** ** The digest has 128 bits *)










(** ** Options and cache keys *)




End Network.

(** ** Memoisation *)


(** ** The embedding on concrete networks *)

Example md5_empty : MD5.hexdigest EmptyString = "d41d8cd98f00b204e9800998ecf8427e".
Proof. vm_compute. reflexivity. Qed.

Example md5_abc : MD5.hexdigest "abc" = "900150983cd24fb0d6963f7d28e17f72".
Proof. vm_compute. reflexivity. Qed.

(** The other digests of the test suite of RFC 1321. *)
Example md5_test_suite :
  MD5.hexdigest "a" = "0cc175b9c0f1b6a831c399e269772661" /\
  MD5.hexdigest "message digest" = "f96b697d7cb7938d525a2f31aaf161d0" /\
  MD5.hexdigest "abcdefghijklmnopqrstuvwxyz" = "c3fcd3d76192e4007dfb496cca67e13b" /\
  MD5.hexdigest "ABCDEFGHIJKLMNOPQRSTUVWXYZabcdefghijklmnopqrstuvwxyz0123456789"
  = "d174ab98d277d9f5a5611c2c9f419d9f" /\
  MD5.hexdigest
    "12345678901234567890123456789012345678901234567890123456789012345678901234567890"
  = "57edf4a22be3c955ac49da2e2107b67a".
Proof. repeat split; vm_compute; reflexivity. Qed.

(** The key of a sample network, as Python computes it. *)
Example hash_sample :
  _hash (sample_network (sample_options [VInt 4; VInt 3; VInt 4] None None)
                        sample_layers)
        [("input_noise", PyFloat "0.1")]
  = MD5.hexdigest "{'input_noise': 0.1}Inputin4Feedforwardhid13Feedforwardout4" /\
  MD5.hexdigest "{'input_noise': 0.1}Inputin4Feedforwardhid13Feedforwardout4"
  = "b1101532270fe661e18ce87c7492cd67".
Proof. split; vm_compute; reflexivity. Qed.

Example str_dict_sample :
  str_dict [("input_noise", PyFloat "0.1"); ("hidden_noise", PyInt 0)]
  = "{'input_noise': 0.1, 'hidden_noise': 0}".
Proof. vm_compute. reflexivity. Qed.

(** The rendering follows the order in which the options were written. *)
Example str_dict_order :
  str_dict [("hidden_noise", PyInt 0); ("input_noise", PyFloat "0.1")]
  = "{'hidden_noise': 0, 'input_noise': 0.1}".
Proof. vm_compute. reflexivity. Qed.


(** A topology of three elements gives three layers. *)
Lemma setup_layers_count_witness :
  exists ls,
    setup_layers spec_build spec_registry spec_str_object
                 (sample_options [VInt 4; VInt 3; VInt 4] None None) []
    = Ok ls /\
    length ls = 3%nat.
Proof.
  eexists. split; [vm_compute; reflexivity|].
  refine (proj1 (setup_layers_count spec_build spec_registry spec_str_object
                   (sample_options [VInt 4; VInt 3; VInt 4] None None)
                   [VInt 4; VInt 3; VInt 4] _ eq_refl _ _)).
  - simpl. lia.
  - vm_compute. reflexivity.
Defined.

(** A topology of one element is not empty, and no network is constructed
    from it. *)
Lemma single_element_topology_raises :
  [VInt 4] <> [] /\
  __init__ spec_build spec_registry spec_str_object
           (sample_options [VInt 4] None None)
  = Raise (IndexError "pop from empty list") /\
  ~ exists net,
      __init__ spec_build spec_registry spec_str_object
               (sample_options [VInt 4] None None) = Ok net /\
      length (net_layers net) = 1%nat.
Proof.
  split; [done|]. split; [reflexivity|].
  intros (net & H & _). discriminate H.
Qed.

Lemma int_and_mapping_same_sizes_witness :
  layer_sizes <$>
    setup_layers spec_build spec_registry spec_str_object
      (with_layers (sample_options [] None None)
                   (VInt 4 :: [VInt 3] ++ [VInt 4])) []
  = layer_sizes <$>
    setup_layers spec_build spec_registry spec_str_object
      (with_layers (sample_options [] None None)
                   (VInt 4 :: [VDict [("size", VInt 3)]] ++ [VInt 4])) [].
Proof.
  refine (proj2 (int_and_mapping_same_sizes spec_build spec_registry
                   spec_str_object (sample_options [] None None)
                   (VInt 4) (VInt 4) [VInt 3] [VDict [("size", VInt 3)]] _)).
  constructor; [apply int_as_mapping | constructor].
Defined.

Lemma weights_input_iff_weighted_witness :
  exists net,
    __init__ spec_build spec_registry spec_str_object
             (sample_options [VInt 4; VInt 3; VInt 4] (Some true) None)
    = Ok net /\
    net_weights net ∈ net_inputs net.
Proof.
  eexists. split; [vm_compute; reflexivity|].
  refine (proj2 (proj1 (weights_input_iff_weighted spec_build spec_registry
                          spec_str_object
                          (sample_options [VInt 4; VInt 3; VInt 4] (Some true) None)
                          _ _)) eq_refl).
  vm_compute. reflexivity.
Defined.

(** A tuple as last element is handed over as the decoder's size. *)
Lemma decoder_size_verbatim_witness :
  exists req,
    decoder_request
      (sample_options [VInt 4; VInt 3; VTuple [VInt 4; VStr "relu"]] None None)
      sample_layers = Ok req /\
    req_kwargs req !! "size" = Some (VTuple [VInt 4; VStr "relu"]).
Proof.
  destruct (decoder_size_verbatim spec_build
              (sample_options [VInt 4; VInt 3; VTuple [VInt 4; VStr "relu"]] None None)
              [VInt 4; VInt 3] (VTuple [VInt 4; VStr "relu"]) sample_layers)
    as (req & Hreq & _ & Hsize & _).
  - reflexivity.
  - discriminate.
  - exists req. by split.
Defined.

(** The literal example of the specification, in weighted mode. *)
Lemma error_formula_witness :
  exists net,
    __init__ spec_build spec_registry spec_str_object
             (sample_options [VInt 2; VInt 3; VInt 2] (Some true) None)
    = Ok net /\
    exists q,
      eval (feed [[1; 0]; [0; 1]]%Q [[0; 0]; [0; 0]]%Q [[1; 1]; [0; 0]]%Q)
           (error net (Matrix "y")) = Some (TScalar q) /\
      (q == 1 # 2)%Q.
Proof.
  eexists. split; [vm_compute; reflexivity|].
  lazymatch goal with
  | |- exists q, eval _ (error ?net _) = _ /\ _ =>
      destruct (error_formula spec_build spec_registry spec_str_object
                  (sample_options [VInt 2; VInt 3; VInt 2] (Some true) None) net
                  [[1; 0]; [0; 1]]%Q [[0; 0]; [0; 0]]%Q [[1; 1]; [0; 0]]%Q)
        as (q & Heval & _ & Hhalf)
  end.
  - vm_compute. reflexivity.
  - reflexivity.
  - reflexivity.
  - discriminate.
  - intros _ H. vm_compute in H. discriminate H.
  - exists q. split; [exact Heval|]. by apply Hhalf.
Defined.

(** On the literal example the weighted error is not 1. *)
Lemma weighted_error_example_not_one :
  exists net q,
    __init__ spec_build spec_registry spec_str_object
             (sample_options [VInt 2; VInt 3; VInt 2] (Some true) None)
    = Ok net /\
    eval (feed [[1; 0]; [0; 1]]%Q [[0; 0]; [0; 0]]%Q [[1; 1]; [0; 0]]%Q)
         (error net (Matrix "y")) = Some (TScalar q) /\
    ~ (q == 1)%Q.
Proof.
  eexists _, _. split; [vm_compute; reflexivity|].
  split; [vm_compute; reflexivity|].
  intros H. vm_compute in H. discriminate H.
Qed.

(** Four layers, [decode_from = 2]. *)
Lemma decoder_inputs_witness :
  exists net,
    __init__ spec_build spec_registry spec_str_object
             (sample_options [VInt 4; VInt 3; VInt 2; VInt 4] None (Some 2))
    = Ok net /\
    exists o0 o1 o2 monitors updates,
      graph spec_output net []
      = Ok ([o0; o1; o2;
             (spec_output (mkLayer "Feedforward" "out" 4 [] (Matrix "out.out"))
                          (Group [o1; o2]) (PyInt 0) (PyInt 0)).1.1],
            monitors, updates).
Proof.
  eexists. split; [vm_compute; reflexivity|].
  lazymatch goal with
  | |- exists o0 o1 o2 monitors updates, graph _ ?net _ = _ =>
      destruct (decoder_inputs spec_output net []
                  [mkLayer "Input" "in" 4 [] (Matrix "in.out");
                   mkLayer "Feedforward" "hid1" 3 [] (Matrix "hid1.out");
                   mkLayer "Feedforward" "hid2" 2 [] (Matrix "hid2.out")]
                  (mkLayer "Feedforward" "out" 4 [] (Matrix "out.out")))
        as (prior & mons & upds & inputs & Hgraph & _ & _ & _ & Hfour & _)
  end.
  - reflexivity.
  - discriminate.
  - vm_compute. discriminate.
  - destruct (Hfour eq_refl eq_refl) as (o0 & o1 & o2 & -> & ->).
    exists o0, o1, o2, mons, upds. exact Hgraph.
Defined.

(** With four layers and [decode_from = 2] the decoder, at position 3, is
    given the outputs at positions 1 and 2, which are not those at positions
    2 and 3. *)
Lemma decode_from_2_of_4_layers :
  exists net o0 o1 o2 o3 monitors updates,
    __init__ spec_build spec_registry spec_str_object
             (sample_options [VInt 4; VInt 3; VInt 2; VInt 4] None (Some 2))
    = Ok net /\
    graph spec_output net [] = Ok ([o0; o1; o2; o3], monitors, updates) /\
    layer_args net [] 3 [o0; o1; o2] = Ok (Group [o1; o2], PyInt 0, PyInt 0) /\
    Group [o1; o2] <> Group [o2; o3].
Proof.
  eexists _, _, _, _, _, _, _. split; [vm_compute; reflexivity|].
  split; [vm_compute; reflexivity|].
  split; [vm_compute; reflexivity|].
  intros H. discriminate H.
Qed.

Lemma load_params_missing_key_witness :
  exists params',
    load_params sample_record
                (sample_network (sample_options [VInt 4; VInt 3; VInt 4] None None)
                                sample_layers) ∅
    = (Raise (KeyError "hid1-values"), params').
Proof.
  destruct (load_params_missing_key sample_record
              (sample_network (sample_options [VInt 4; VInt 3; VInt 4] None None)
                              sample_layers)
              ∅
              [mkLayer "Input" "in" 4 [] (Matrix "in.out")]
              [mkLayer "Feedforward" "out" 4 [2; 3]%nat (Matrix "out.out")]
              (mkLayer "Feedforward" "hid1" 3 [0; 1]%nat (Matrix "hid1.out")))
    as (params' & Hload & _).
  - reflexivity.
  - repeat constructor. vm_compute. eauto.
  - vm_compute. reflexivity.
  - exists params'. exact Hload.
Defined.

(** A layer without an entry in the record is not skipped: the call raises,
    and the layer after it, whose entry is there, is not loaded. *)
Lemma load_params_raises_on_missing_key :
  rec_values sample_record !! "hid1-values" = None /\
  rec_values sample_record !! "out-values" = Some [[[1; 2]]; [[3]]]%Q /\
  (load_params sample_record
               (sample_network (sample_options [VInt 4; VInt 3; VInt 4] None None)
                               sample_layers) ∅).1
  = Raise (KeyError "hid1-values") /\
  (load_params sample_record
               (sample_network (sample_options [VInt 4; VInt 3; VInt 4] None None)
                               sample_layers) ∅).2 !! 2%nat
  = None.
Proof. repeat split; vm_compute; reflexivity. Qed.



(** C2, on the code: after [loss] has run, [build_graph] with the same
    options still returns the cached tuple, but its monitors list is no longer
    the one that was stored: [loss] has inserted [('err', ...)] at its head. *)
Theorem loss_mutates_cached_monitors :
  exists net t st1 st2 st3 r monitors err,
    __init__ spec_build spec_registry spec_str_object
             (sample_options [VInt 4; VInt 3; VInt 4] None None) = Ok net /\
    build_graph spec_output [] (net, empty_heap) = (Ok t, st1) /\
    graph_monitors st1.2 t = Ok monitors /\
    loss spec_output [] st1 = (Ok r, st2) /\
    build_graph spec_output [] st2 = (Ok t, st3) /\
    graph_monitors st3.2 t = Ok (("err", err) :: monitors) /\
    length monitors = 3%nat.
Proof.
  eexists _, _, _, _, _, _, _, _.
  split; [vm_compute; reflexivity|].
  split; [vm_compute; reflexivity|].
  split; [vm_compute; reflexivity|].
  split; [vm_compute; reflexivity|].
  split; [vm_compute; reflexivity|].
  split; [vm_compute; reflexivity|].
  reflexivity.
Qed.

(** ** Sample runs of the further properties *)

(** Saving the parameters of the sample layers and loading them into an empty
    store. *)
Lemma save_load_params_witness :
  exists store',
    load_params
      (save "Network"
            (sample_network (sample_options [VInt 4; VInt 3; VInt 4] None None)
                            sample_layers)
            (<[0%nat := [[1; 2]]%Q]> (<[3%nat := [[7]]%Q]> ∅)))
      (sample_network (sample_options [VInt 4; VInt 3; VInt 4] None None)
                      sample_layers)
      ∅
    = (Ok (), store') /\
    store' !! 0%nat = Some [[1; 2]]%Q /\
    store' !! 1%nat = Some [] /\
    store' !! 7%nat = None.
Proof.
  destruct (save_load_params "Network"
              (sample_network (sample_options [VInt 4; VInt 3; VInt 4] None None)
                              sample_layers)
              (<[0%nat := [[1; 2]]%Q]> (<[3%nat := [[7]]%Q]> ∅)) ∅)
    as (store' & Hload & Hin & Hout).
  - apply (bool_decide_unpack _). vm_compute. reflexivity.
  - exists store'. split; [exact Hload|]. split; [|split].
    + apply (Hin 0%nat).
      apply (bool_decide_unpack _). vm_compute. reflexivity.
    + apply (Hin 1%nat).
      apply (bool_decide_unpack _). vm_compute. reflexivity.
    + etrans; [apply (Hout 7%nat)|reflexivity].
      apply (bool_decide_unpack _). vm_compute. reflexivity.
Defined.

(** A record with an entry of a layer that the network does not have. *)
Lemma load_params_only_reads_layers_witness :
  load_params sample_record
              (sample_network (sample_options [VInt 4; VInt 3; VInt 4] None None)
                              sample_layers) ∅
  = load_params (mkRecord "Network"
                          (sample_options [VInt 4; VInt 3; VInt 4] None None)
                          (<["hid7-values" := [[[9]]]%Q]> (rec_values sample_record)))
                (sample_network (sample_options [VInt 4; VInt 3; VInt 4] None None)
                                sample_layers) ∅.
Proof.
  apply load_params_only_reads_layers.
  intros l Hl.
  repeat (apply elem_of_cons in Hl as [->|Hl]); try (vm_compute; reflexivity).
  by apply elem_of_nil in Hl.
Defined.

(** Two parameters, one saved value: the second parameter keeps its value. *)
Lemma set_values_zip_witness :
  set_values [0; 1]%nat [[[1]]]%Q (<[1%nat := [[5]]%Q]> ∅) !! 1%nat
  = Some [[5]]%Q.
Proof.
  rewrite (set_values_zip [0; 1]%nat [[[1]]]%Q (<[1%nat := [[5]]%Q]> ∅) 1%nat 1%nat).
  - reflexivity.
  - apply (bool_decide_unpack _). vm_compute. reflexivity.
  - reflexivity.
Defined.

(** Position 1 is the first hidden layer; position -1 is no layer. *)
Lemma find_by_position_witness :
  find spec_find
       (sample_network (sample_options [VInt 4; VInt 3; VInt 4] None None)
                       sample_layers)
       (RefInt 1) (RefInt 0) = Ok 0%nat /\
  find spec_find
       (sample_network (sample_options [VInt 4; VInt 3; VInt 4] None None)
                       sample_layers)
       (RefInt (-1)) (RefInt 0) = Raise (KeyError "-1").
Proof.
  destruct (find_by_position spec_find
              (sample_network (sample_options [VInt 4; VInt 3; VInt 4] None None)
                              sample_layers)
              (RefInt 0)) as [Hin Hout].
  split.
  - exact (Hin 1%nat _ eq_refl).
  - apply (Hout (-1)). left. lia.
Defined.

Lemma find_by_name_witness :
  find spec_find
       (sample_network (sample_options [VInt 4; VInt 3; VInt 4] None None)
                       sample_layers)
       (RefStr "out") (RefInt 1) = Ok 3%nat /\
  find spec_find
       (sample_network (sample_options [VInt 4; VInt 3; VInt 4] None None)
                       sample_layers)
       (RefStr "hid2") (RefInt 1) = Raise (KeyError "hid2").
Proof.
  split.
  - refine (proj1 (find_by_name spec_find
                     (sample_network (sample_options [VInt 4; VInt 3; VInt 4] None None)
                                     sample_layers)
                     "out" (RefInt 1))
                  [mkLayer "Input" "in" 4 [] (Matrix "in.out");
                   mkLayer "Feedforward" "hid1" 3 [0; 1]%nat (Matrix "hid1.out")]
                  (mkLayer "Feedforward" "out" 4 [2; 3]%nat (Matrix "out.out"))
                  [] eq_refl _ eq_refl).
    repeat constructor; discriminate.
  - apply (proj2 (find_by_name spec_find
                    (sample_network (sample_options [VInt 4; VInt 3; VInt 4] None None)
                                    sample_layers)
                    "hid2" (RefInt 1))).
    repeat constructor; discriminate.
Defined.

(** The sample network with noise on the input and on the decoder. *)
Lemma graph_is_a_chain_witness :
  graph spec_output
        (sample_network (sample_options [VInt 4; VInt 3; VInt 4] None None)
                        sample_layers)
        [("input_noise", PyFloat "0.1"); ("hidden_noise", PyFloat "0.2")]
  = Ok ([LayerOut "in" false [Matrix "x"] (PyFloat "0.1") (PyInt 0);
         LayerOut "hid1" false
                  [LayerOut "in" false [Matrix "x"] (PyFloat "0.1") (PyInt 0)]
                  (PyInt 0) (PyInt 0);
         LayerOut "out" true
                  [LayerOut "hid1" false
                     [LayerOut "in" false [Matrix "x"] (PyFloat "0.1") (PyInt 0)]
                     (PyInt 0) (PyInt 0)]
                  (PyFloat "0.2") (PyInt 0)],
        [("in.mean",
          Mean (LayerOut "in" false [Matrix "x"] (PyFloat "0.1") (PyInt 0)));
         ("hid1.mean",
          Mean (LayerOut "hid1" false
                  [LayerOut "in" false [Matrix "x"] (PyFloat "0.1") (PyInt 0)]
                  (PyInt 0) (PyInt 0)));
         ("out.mean",
          Mean (LayerOut "out" true
                  [LayerOut "hid1" false
                     [LayerOut "in" false [Matrix "x"] (PyFloat "0.1") (PyInt 0)]
                     (PyInt 0) (PyInt 0)]
                  (PyFloat "0.2") (PyInt 0)))],
        []).
Proof.
  exact (graph_is_a_chain spec_output
           (sample_network (sample_options [VInt 4; VInt 3; VInt 4] None None)
                           sample_layers)
           [("input_noise", PyFloat "0.1"); ("hidden_noise", PyFloat "0.2")]
           (mkLayer "Input" "in" 4 [] (Matrix "in.out"))
           (mkLayer "Feedforward" "out" 4 [2; 3]%nat (Matrix "out.out"))
           [mkLayer "Feedforward" "hid1" 3 [0; 1]%nat (Matrix "hid1.out")]
           eq_refl).
Defined.

(** A regularisation weight does not change the graph. *)
Lemma graph_reads_four_options_witness :
  graph spec_output
        (sample_network (sample_options [VInt 4; VInt 3; VInt 4] None None)
                        sample_layers)
        [("weight_l1", PyFloat "0.1"); ("input_noise", PyFloat "0.3")]
  = graph spec_output
          (sample_network (sample_options [VInt 4; VInt 3; VInt 4] None None)
                          sample_layers)
          [("input_noise", PyFloat "0.3")].
Proof.
  apply graph_reads_four_options. repeat constructor.
Defined.

(** Three calls on a network fresh from its constructor. *)
Lemma calls_keep_caches_witness :
  exists net,
    __init__ spec_build spec_registry spec_str_object
             (sample_options [VInt 4; VInt 3; VInt 4] None None)
    = Ok net /\
    cache_ok (run spec_output [CallLoss []; CallFeedForward []; CallPredict]
                  (net, empty_heap)).
Proof.
  eexists. split; [vm_compute; reflexivity|].
  lazymatch goal with
  | |- cache_ok (run _ ?calls (?net, _)) =>
      pose proof (calls_keep_caches spec_build spec_registry spec_output
                    spec_str_object
                    (sample_options [VInt 4; VInt 3; VInt 4] None None)
                    net calls [] eq_refl) as H
  end.
  cbv zeta in H. exact (proj1 H).
Defined.


Lemma functions_follow_graphs_witness :
  exists net,
    __init__ spec_build spec_registry spec_str_object
             (sample_options [VInt 4; VInt 3; VInt 4] None None)
    = Ok net /\
    functions_consistent
      (run spec_output [CallFeedForward []; CallLoss []] (net, empty_heap)).
Proof.
  eexists. split; [vm_compute; reflexivity|].
  lazymatch goal with
  | |- functions_consistent (run _ ?calls (?net, _)) =>
      exact (functions_follow_graphs spec_build spec_registry spec_output
               spec_str_object
               (sample_options [VInt 4; VInt 3; VInt 4] None None)
               net calls eq_refl)
  end.
Defined.

Lemma loss_returns_witness :
  exists net,
    __init__ spec_build spec_registry spec_str_object
             (sample_options [VInt 4; VInt 3; VInt 4] None None)
    = Ok net /\
    exists r st',
      loss spec_output [("weight_l1", PyFloat "0.1")] (net, empty_heap)
      = (Ok r, st').
Proof.
  eexists. split; [vm_compute; reflexivity|].
  lazymatch goal with
  | |- exists r st', loss _ ?kwargs (?net, _) = _ =>
      pose proof (loss_returns spec_build spec_registry spec_output
                    spec_str_object
                    (sample_options [VInt 4; VInt 3; VInt 4] None None)
                    net
                    [mkLayer "Input" "in" 4 [] (Matrix "in.out");
                     mkLayer "Feedforward" "hid1" 3 [] (Matrix "hid1.out")]
                    (mkLayer "Feedforward" "out" 4 [] (Matrix "out.out"))
                    [] kwargs eq_refl eq_refl) as H
  end.
  cbv zeta in H. destruct H as (out & hiddens & t & o & m & u & st' & H & _).
  eexists _, st'. exact H.
Defined.

(** No [layers] option at all. *)
Lemma network_without_layers_witness :
  exists net,
    __init__ spec_build spec_registry spec_str_object
             (mkOptions None None None None None None)
    = Ok net /\
    net_layers net = [] /\
    exists st',
      loss spec_output [] (net, empty_heap)
      = (Raise (IndexError "list index out of range"), st').
Proof.
  destruct (network_without_layers spec_build spec_registry spec_output
              spec_str_object (mkOptions None None None None None None) [] []
              eq_refl)
    as (net & Hinit & Hls & _ & st' & Hloss & _).
  exists net. split; [exact Hinit|]. split; [exact Hls|].
  exists st'. exact Hloss.
Defined.


(** Four layers, [decode_from = 2]: two sizes declared, two outputs fed. *)
Lemma decoder_nin_matches_inputs_witness :
  exists req,
    decoder_request
      (sample_options [VInt 4; VInt 3; VInt 2; VInt 4] None (Some 2))
      [mkLayer "Input" "in" 4 [] (Matrix "in.out");
       mkLayer "Feedforward" "hid1" 3 [] (Matrix "hid1.out");
       mkLayer "Feedforward" "hid2" 2 [] (Matrix "hid2.out")]
    = Ok req /\
    req_kwargs req !! "nin" = Some (VList [VInt 3; VInt 2]).
Proof.
  eexists. split; [vm_compute; reflexivity|].
  lazymatch goal with
  | |- req_kwargs ?req !! _ = _ =>
      pose proof (decoder_nin_matches_inputs spec_output
                    (sample_network
                       (sample_options [VInt 4; VInt 3; VInt 2; VInt 4] None (Some 2))
                       [mkLayer "Input" "in" 4 [] (Matrix "in.out");
                        mkLayer "Feedforward" "hid1" 3 [] (Matrix "hid1.out");
                        mkLayer "Feedforward" "hid2" 2 [] (Matrix "hid2.out");
                        mkLayer "Feedforward" "out" 4 [] (Matrix "out.out")])
                    []
                    [mkLayer "Input" "in" 4 [] (Matrix "in.out");
                     mkLayer "Feedforward" "hid1" 3 [] (Matrix "hid1.out");
                     mkLayer "Feedforward" "hid2" 2 [] (Matrix "hid2.out")]
                    (mkLayer "Feedforward" "out" 4 [] (Matrix "out.out"))
                    req eq_refl) as H
  end.
  cbv zeta in H.
  destruct H as (prior & inputs & mons & upds & _ & _ & _ & _ & Hmany).
  - discriminate.
  - vm_compute. reflexivity.
  - vm_compute. discriminate.
  - apply Hmany. vm_compute. discriminate.
Defined.

(** Four layers, [decode_from = 0]: one size declared, three outputs fed. *)
Lemma decode_from_nonpositive_witness :
  exists req,
    decoder_request
      (sample_options [VInt 4; VInt 3; VInt 2; VInt 4] None (Some 0))
      [mkLayer "Input" "in" 4 [] (Matrix "in.out");
       mkLayer "Feedforward" "hid1" 3 [] (Matrix "hid1.out");
       mkLayer "Feedforward" "hid2" 2 [] (Matrix "hid2.out")]
    = Ok req /\
    req_kwargs req !! "nin" = Some (VInt 2) /\
    exists o0 o1 o2 mons upds,
      graph spec_output
            (sample_network
               (sample_options [VInt 4; VInt 3; VInt 2; VInt 4] None (Some 0))
               [mkLayer "Input" "in" 4 [] (Matrix "in.out");
                mkLayer "Feedforward" "hid1" 3 [] (Matrix "hid1.out");
                mkLayer "Feedforward" "hid2" 2 [] (Matrix "hid2.out");
                mkLayer "Feedforward" "out" 4 [] (Matrix "out.out")])
            []
      = Ok ([o0; o1; o2;
             (spec_output (mkLayer "Feedforward" "out" 4 [] (Matrix "out.out"))
                          (Group [o0; o1; o2]) (PyInt 0) (PyInt 0)).1.1],
            mons, upds).
Proof.
  eexists. split; [vm_compute; reflexivity|].
  lazymatch goal with
  | |- req_kwargs ?req !! _ = _ /\ _ =>
      pose proof (decode_from_nonpositive spec_output
                    (sample_network
                       (sample_options [VInt 4; VInt 3; VInt 2; VInt 4] None (Some 0))
                       [mkLayer "Input" "in" 4 [] (Matrix "in.out");
                        mkLayer "Feedforward" "hid1" 3 [] (Matrix "hid1.out");
                        mkLayer "Feedforward" "hid2" 2 [] (Matrix "hid2.out");
                        mkLayer "Feedforward" "out" 4 [] (Matrix "out.out")])
                    []
                    [mkLayer "Input" "in" 4 [] (Matrix "in.out");
                     mkLayer "Feedforward" "hid1" 3 [] (Matrix "hid1.out");
                     mkLayer "Feedforward" "hid2" 2 [] (Matrix "hid2.out")]
                    (mkLayer "Feedforward" "out" 4 [] (Matrix "out.out"))
                    req eq_refl) as H
  end.
  cbv zeta in H.
  destruct H as (l & prior & inputs & mons & upds & Hlast & Hnin & Hgraph & Hall & _ & Hzero).
  - discriminate.
  - vm_compute. reflexivity.
  - vm_compute. discriminate.
  - injection Hlast as <-. split; [exact Hnin|].
    rewrite (Hzero eq_refl) in Hgraph.
    pose proof (Forall2_length _ _ _ Hall) as Hlen.
    destruct prior as [|o0 [|o1 [|o2 [|o3 prior]]]]; try discriminate.
    exists o0, o1, o2, mons, upds. exact Hgraph.
Defined.

(** A mapping that names its layer and its activation. *)
Lemma dict_spec_overrides_witness :
  exists req,
    encoder_request spec_registry spec_str_object
      (sample_options [VInt 4; VInt 3; VInt 4] None None) RandomStreams
      [mkLayer "Input" "in" 4 [] (Matrix "in.out")]
      (VDict [("size", VInt 5); ("name", VStr "mine"); ("activation", VStr "tanh")])
    = Ok req /\
    req_kwargs req !! "name" = Some (VStr "mine") /\
    req_kwargs req !! "activation" = Some (VStr "tanh").
Proof.
  eexists. split; [vm_compute; reflexivity|].
  lazymatch goal with
  | |- req_kwargs ?req !! _ = _ /\ _ =>
      pose proof (dict_spec_overrides spec_registry spec_str_object
                    (sample_options [VInt 4; VInt 3; VInt 4] None None) RandomStreams
                    [mkLayer "Input" "in" 4 [] (Matrix "in.out")]
                    [("size", VInt 5); ("name", VStr "mine");
                     ("activation", VStr "tanh")]
                    req) as H
  end.
  destruct H as [Hkeys _]; [vm_compute; reflexivity|].
  split.
  - apply Hkeys; [vm_compute; reflexivity|]. right. vm_compute. reflexivity.
  - apply Hkeys; [vm_compute; reflexivity|]. left. discriminate.
Defined.

(** A tuple with two integers: the second is the size. *)
Lemma tuple_spec_size_witness :
  exists req,
    encoder_request spec_registry spec_str_object
      (sample_options [VInt 4; VInt 3; VInt 4] None None) RandomStreams
      [mkLayer "Input" "in" 4 [] (Matrix "in.out")]
      (VTuple [VInt 10; VStr "tanh"; VInt 20; VStr "rnn"])
    = Ok req /\
    req_kwargs req !! "size" = Some (VInt 20).
Proof.
  eexists. split; [vm_compute; reflexivity|].
  lazymatch goal with
  | |- req_kwargs ?req !! _ = _ =>
      apply (tuple_spec_size spec_registry spec_str_object
               (sample_options [VInt 4; VInt 3; VInt 4] None None) RandomStreams
               [mkLayer "Input" "in" 4 [] (Matrix "in.out")]
               (VTuple [VInt 10; VStr "tanh"; VInt 20; VStr "rnn"])
               (VInt 20) [VInt 10; VStr "tanh"] [VStr "rnn"] req)
  end.
  - left. reflexivity.
  - reflexivity.
  - repeat constructor.
  - vm_compute. reflexivity.
Defined.

(** The middle element of a topology of three. *)
Lemma layers_follow_specs_witness :
  exists ls,
    setup_layers spec_build spec_registry spec_str_object
                 (sample_options [VInt 4; VInt 3; VInt 4] None None) []
    = Ok ls /\
    exists prev l,
      ls !! 0%nat = Some prev /\ ls !! 1%nat = Some l /\
      spec_build
        (mkRequest "feedforward" []
           (<["size" := VInt 3]>
            (<["rng" := RandomStreams]>
             (<["activation" := VStr "logistic"]>
              (<["inputs" :=
                   VDict [(layer_name prev +:+ ".out", VExpr (layer_out prev))]]>
               (<["name" := VStr "hid1"]> ∅))))))
      = Ok l.
Proof.
  eexists. split; [vm_compute; reflexivity|].
  lazymatch goal with
  | |- exists prev l, ?ls !! _ = _ /\ _ =>
      pose proof (layers_follow_specs spec_build spec_registry spec_str_object
                    (sample_options [VInt 4; VInt 3; VInt 4] None None)
                    [VInt 4; VInt 3; VInt 4] ls 1%nat eq_refl) as H
  end.
  destruct H as [_ Hint].
  - vm_compute. reflexivity.
  - lia.
  - simpl. lia.
  - destruct (Hint 3 eq_refl) as (prev & l & Hprev & Hl & Hbuild).
    exists prev, l. split; [exact Hprev|]. split; [exact Hl|]. exact Hbuild.
Defined.
